(** * pylint_django.transforms.foreignkey

    A shallow embedding of [src/pylint_django/transforms/foreignkey.py]:
    the classifier [is_foreignkey_in_class], the import-following helper
    [_get_model_class_defs_from_module], the registry helper
    [_module_name_from_django_model_resolution] and the inference tip
    [infer_key_classes], followed by the properties the specification
    states about them.

    Python exceptions are values of [exn]; a computation is a pair of the
    events it performed (modules entered, registry queries) and either a
    value or the exception that left it. *)

From Stdlib Require Import String Ascii List Bool Arith Lia ZArith.
Import ListNotations.
Open Scope string_scope.
Open Scope list_scope.

(** ** Python strings *)

Module Str.

(** [s.endswith(suffix)] *)
Fixpoint endswith (s suffix : string) : bool :=
  if String.eqb s suffix then true
  else match s with
       | EmptyString => false
       | String _ s' => endswith s' suffix
       end.

(** [sub in s] *)
Fixpoint contains (s sub : string) : bool :=
  if String.prefix sub s then true
  else match s with
       | EmptyString => false
       | String _ s' => contains s' sub
       end.

Fixpoint drop (n : nat) (s : string) : string :=
  match n, s with
  | O, _ => s
  | S _, EmptyString => EmptyString
  | S n', String _ s' => drop n' s'
  end.

(** The split of [s] at the last occurrence of [sep], when there is one. *)
Fixpoint rsplit_last (s sep : string) : option (string * string) :=
  match s with
  | EmptyString => None
  | String c s' =>
      match rsplit_last s' sep with
      | Some (head, tail) => Some (String c head, tail)
      | None =>
          if String.prefix sep s
          then Some (EmptyString, drop (String.length sep) s)
          else None
      end
  end.

(** [s.rpartition(sep)] for a non-empty separator: the part before the last
    occurrence, the separator, the part after it; two empty strings and [s]
    when the separator does not occur. *)
Definition rpartition (s sep : string) : string * string * string :=
  match rsplit_last s sep with
  | Some (head, tail) => (head, sep, tail)
  | None => (EmptyString, EmptyString, s)
  end.

End Str.

(** ** Exceptions and computations *)

Inductive exn : Type :=
  | UseInferenceDefault
  | InferenceError
  | AttributeError
  | UnboundLocalError
  | TypeError
  | LookupError
  | ImproperlyConfigured
  | RuntimeError (msg : string)
  | RecursionError
  | AstroidImportError.

Inductive res (A : Type) : Type :=
  | Ok (a : A)
  | Raise (e : exn).
Arguments Ok {A} a.
Arguments Raise {A} e.

(** What a run of the resolver does to its collaborators: it enters a module
    in [_get_model_class_defs_from_module], or it queries the framework's
    application registry. *)
Inductive event : Type :=
  | EvVisit (module_name : string)
  | EvRegistry (model_name app_label : string).

Definition M (A : Type) : Type := (list event * res A)%type.

Definition ret {A} (a : A) : M A := ([], Ok a).
Definition raise {A} (e : exn) : M A := ([], Raise e).
Definition tell (ev : event) : M unit := ([ev], Ok tt).
Definition lift {A} (r : res A) : M A := ([], r).

Definition bind {A B} (m : M A) (f : A -> M B) : M B :=
  match m with
  | (log, Ok a) => let (log', r) := f a in (log ++ log', r)
  | (log, Raise e) => (log, Raise e)
  end.

(** [try: m  except ...: handler e]; the handler re-raises what it does not
    catch. *)
Definition try_except {A} (m : M A) (handler : exn -> M A) : M A :=
  match m with
  | (log, Ok a) => (log, Ok a)
  | (log, Raise e) => let (log', r) := handler e in (log ++ log', r)
  end.

Notation "x <- m ;; k" := (bind m (fun x => k))
  (at level 61, m at next level, right associativity).
Notation "m ;;; k" := (bind m (fun _ => k))
  (at level 61, right associativity).

Definition events {A} (m : M A) : list event := fst m.
Definition outcome {A} (m : M A) : res A := snd m.

(** ** Syntax trees, as the resolver reads them *)

(** A class definition: its name and the dotted path of the module it is
    defined in. *)
Record class_def : Type := mkClass {
  cls_name : string;
  cls_module : string
}.

(** The node classes the code tests with [isinstance], each with the
    attributes the code reads. *)
Inductive node_kind : Type :=
  | nodes_Module (name : string)
  | nodes_ClassDef (cls : class_def)
  | nodes_FunctionDef (name : string)
  | nodes_Lambda
  | nodes_Assign
  | nodes_Call
  | nodes_Keyword (arg : option string)
  | nodes_Other (name : option string).

(** A node seen from below: its class and its [parent] attribute ([None]
    at the root). *)
#[warnings="-register-all"]
Inductive node : Type :=
  | Node (kind : node_kind) (parent : option node).

(** A Python reference that may be [None]. *)
Definition pyobj : Type := option node.

Definition get_parent (o : pyobj) : res pyobj :=
  match o with
  | None => Raise AttributeError
  | Some (Node _ p) => Ok p
  end.

Definition kind_name (k : node_kind) : option string :=
  match k with
  | nodes_Module n => Some n
  | nodes_ClassDef c => Some (cls_name c)
  | nodes_FunctionDef n => Some n
  | nodes_Other n => n
  | _ => None
  end.

Definition get_name (o : pyobj) : res string :=
  match o with
  | None => Raise AttributeError
  | Some (Node k _) =>
      match kind_name k with
      | Some n => Ok n
      | None => Raise AttributeError
      end
  end.

(** Values of constants in the tree. [COther] stands for the constants that,
    like integers, have no [rpartition] attribute (floats, complex numbers,
    the ellipsis). *)
Inductive const_value : Type :=
  | CStr (s : string)
  | CBytes (b : string)
  | CInt (z : Z)
  | CBool (b : bool)
  | CNone
  | COther.

(** What the host's inference produces. *)
Inductive value : Type :=
  | InstanceOf (cls : class_def)
  | Uninferable.

(** An inferred value: a class, or something else with its
    [instantiate_class()] ([None] when it has no such attribute). *)
Inductive inferred : Type :=
  | InfClass (cls : class_def)
  | InfOther (instantiated : option value).

(** The lazy sequence [arg.infer(context=context)]. *)
Inductive infer_seq : Type :=
  | SeqEnd
  | SeqYield (v : inferred) (rest : infer_seq)
  | SeqRaise.

Inductive expr : Type :=
  | Name (name : string) (infer : infer_seq)
  | Attribute (attrname : string) (infer : infer_seq)
  | Const (value : const_value)
  | OtherExpr.

Record arg_node : Type := mkArg {
  arg_expr : expr;
  arg_parent : pyobj
}.

Record keyword : Type := mkKeyword {
  kw_arg : option string;
  kw_value : arg_node
}.

(** A call expression: [node.parent], [node.func], [node.args],
    [node.keywords]. *)
Record call_node : Type := mkCall {
  call_parent : pyobj;
  func : expr;
  args : list arg_node;
  keywords : list keyword
}.

Definition as_node (c : call_node) : node := Node nodes_Call (call_parent c).

(** ** Modules of the host's cache *)

Inductive module_node : Type :=
  | DefClass (cls : class_def)
  | DefImportFrom (modname : string)
  | DefOther.

Record module_rec : Type := mkModule {
  mod_name : string;
  mod_locals : list string;
  mod_lookup : string -> list module_node
}.

(** The framework's application registry: [django.setup()] succeeds or
    raises [ImproperlyConfigured]; [apps.get_app_config] and
    [app.get_model] raise [LookupError] on an unknown label or model; a model
    found answers with its [__module__]. *)
Record Django : Type := mkDjango {
  setup_ok : bool;
  get_app_config : string -> option (string -> option string)
}.

(** The collaborators: [pylint_django.utils.node_is_subclass], the values
    of [MANAGER.astroid_cache] in the dict's order, what
    [do_import_module()] answers for an [ImportFrom] of a given module name
    ([None]: the import fails), the framework runtime, and the depth of
    recursion the interpreter still allows. *)
Record Host : Type := mkHost {
  node_is_subclass : class_def -> list string -> bool;
  astroid_cache : list module_rec;
  do_import_module : string -> option module_rec;
  django : Django;
  recursion_limit : nat
}.

(** ** The classifier *)

Definition isinstance_Assign (o : pyobj) : bool :=
  match o with Some (Node nodes_Assign _) => true | _ => false end.

Definition isinstance_ClassDef (o : pyobj) : option class_def :=
  match o with Some (Node (nodes_ClassDef c) _) => Some c | _ => None end.

Definition isinstance_Module (n : node) : bool :=
  match n with Node (nodes_Module _) _ => true | _ => false end.

Definition parent_of (o : pyobj) : pyobj :=
  match o with Some (Node _ p) => p | None => None end.

Definition field_names : list string := ["OneToOneField"; "ForeignKey"].

Definition model_qnames : list string :=
  ["django.db.models.base.Model"; ".Model"].

Definition is_foreignkey_in_class (h : Host) (node : call_node) : bool :=
  if negb (isinstance_Assign (call_parent node)) then false
  else
    match isinstance_ClassDef (parent_of (call_parent node)) with
    | None => false
    | Some cls =>
        let is_in_django_model_class := node_is_subclass h cls model_qnames in
        if negb is_in_django_model_class then false
        else
          match func node with
          | Attribute attrname _ => existsb (String.eqb attrname) field_names
          | Name name _ => existsb (String.eqb name) field_names
          | _ => false
          end
    end.

(** ** Following from-imports *)

(** The loop over [module.lookup(model_name)[1]]; [recurse] is the call of
    [_get_model_class_defs_from_module] on an imported module. *)
Fixpoint for_module_nodes (h : Host)
    (recurse : module_rec -> M (list class_def))
    (module_nodes : list module_node) (class_defs : list class_def)
    : M (list class_def) :=
  match module_nodes with
  | [] => ret class_defs
  | module_node :: rest =>
      match module_node with
      | DefClass cls =>
          if node_is_subclass h cls ["django.db.models.base.Model"]
          then for_module_nodes h recurse rest (class_defs ++ [cls])
          else for_module_nodes h recurse rest class_defs
      | DefImportFrom modname =>
          match do_import_module h modname with
          | None => raise AstroidImportError
          | Some imported_module =>
              found <- recurse imported_module ;;
              for_module_nodes h recurse rest (class_defs ++ found)
          end
      | DefOther => for_module_nodes h recurse rest class_defs
      end
  end.

(** One entry in the trace per module entered. At depth 0 the interpreter
    refuses the call with [RecursionError]. *)
Fixpoint _get_model_class_defs_from_module (depth : nat) (h : Host)
    (module : module_rec) (model_name module_name : string)
    : M (list class_def) :=
  match depth with
  | O => raise RecursionError
  | S depth' =>
      tell (EvVisit (mod_name module)) ;;;
      for_module_nodes h
        (fun imported_module =>
           _get_model_class_defs_from_module depth' h imported_module
             model_name module_name)
        (mod_lookup module model_name) []
  end.

(** ** The framework registry *)

Definition _module_name_from_django_model_resolution (h : Host)
    (model_name module_name : string) : M string :=
  tell (EvRegistry model_name module_name) ;;;
  if negb (setup_ok (django h)) then raise ImproperlyConfigured
  else
    match get_app_config (django h) module_name with
    | None => raise LookupError
    | Some app =>
        match app model_name with
        | None => raise LookupError
        | Some model_module => ret model_module
        end
    end.

(** ** The enclosing module of the call site *)

Definition rbind {A B} (r : res A) (f : A -> res B) : res B :=
  match r with
  | Ok a => f a
  | Raise e => Raise e
  end.

Definition is_frame_kind (k : node_kind) : bool :=
  match k with
  | nodes_Module _ | nodes_ClassDef _ | nodes_FunctionDef _ | nodes_Lambda =>
      true
  | _ => false
  end.

(** [n.frame()]: the node itself when it is a module, class, function or
    lambda, otherwise the frame of its parent. *)
Fixpoint frame (n : node) : res node :=
  match n with
  | Node k p =>
      if is_frame_kind k then Ok n
      else match p with
           | None => Raise AttributeError
           | Some q => frame q
           end
  end.

Fixpoint height (n : node) : nat :=
  match n with
  | Node _ None => O
  | Node _ (Some p) => S (height p)
  end.

(** Induction along the chain of parents. *)
Fixpoint node_chain_ind (P : node -> Prop)
    (at_root : forall k, P (Node k None))
    (at_child : forall k p, P p -> P (Node k (Some p)))
    (n : node) : P n :=
  match n with
  | Node k None => at_root k
  | Node k (Some p) => at_child k p (node_chain_ind P at_root at_child p)
  end.

(** [while not isinstance(current_module, nodes.Module):
       current_module = current_module.parent.frame()]
    Every turn moves to a proper ancestor, so [height current_module] turns
    are enough; with none left the node is a root and its parent is [None]. *)
Fixpoint while_not_Module (turns : nat) (current_module : node) : res node :=
  if isinstance_Module current_module then Ok current_module
  else
    match current_module, turns with
    | Node _ (Some p), S turns' => rbind (frame p) (while_not_Module turns')
    | _, _ => Raise AttributeError
    end.

Definition current_module_name (node : call_node) : res string :=
  rbind (frame (as_node node)) (fun current_module =>
  rbind (while_not_Module (height current_module) current_module)
        (fun current_module => get_name (Some current_module))).

(** ** The inference tip *)

(** The local variable [key_cls]: not yet assigned, or assigned [None] or an
    inferred value. *)
Inductive binding : Type :=
  | Unbound
  | Bound (v : option inferred).

Definition instantiate_class (v : inferred) : res value :=
  match v with
  | InfClass cls => Ok (InstanceOf cls)
  | InfOther (Some x) => Ok x
  | InfOther None => Raise AttributeError
  end.

(** [return iter([key_cls.instantiate_class()])], reached after a [break]. *)
Definition return_key_cls (key_cls : binding) : M (list value) :=
  match key_cls with
  | Unbound => raise UnboundLocalError
  | Bound None => raise AttributeError
  | Bound (Some v) => x <- lift (instantiate_class v) ;; ret [x]
  end.

Definition eq_self (value : const_value) : bool :=
  match value with
  | CStr s => String.eqb s "self"
  | _ => false
  end.

Definition is_to_keyword (o : pyobj) : bool :=
  match o with
  | Some (Node (nodes_Keyword (Some a)) _) => String.eqb a "to"
  | _ => false
  end.

(** [value.rpartition(".")]: strings split, bytes refuse a [str] separator,
    other constants have no such attribute. *)
Definition value_rpartition (value : const_value)
    : res (string * string * string) :=
  match value with
  | CStr s => Ok (Str.rpartition s ".")
  | CBytes _ => Raise TypeError
  | _ => Raise AttributeError
  end.

(** The body of the [try] for a constant: the pair
    [(module_name, model_name)]. *)
Definition literal_target (arg : arg_node) (value : const_value)
    : res (string * string) :=
  if eq_self value then
    let module_name := "" in
    if is_to_keyword (arg_parent arg) then
      rbind (get_parent (arg_parent arg)) (fun p1 =>
      rbind (get_parent p1) (fun p2 =>
      rbind (get_parent p2) (fun p3 =>
      rbind (get_name p3) (fun model_name =>
      Ok (module_name, model_name)))))
    else
      rbind (get_parent (arg_parent arg)) (fun p1 =>
      rbind (get_parent p1) (fun p2 =>
      rbind (get_name p2) (fun model_name =>
      Ok (module_name, model_name))))
  else
    rbind (value_rpartition value) (fun '(module_name, _, model_name) =>
    Ok (module_name, model_name)).

Definition settings_message : string :=
  "DJANGO_SETTINGS_MODULE required for resolving ForeignKey string references, see Usage section in README at https://pypi.org/project/pylint-django/!".

(** Lines 95-116: the module in which the class is looked for. *)
Definition resolve_module_name (h : Host) (node : call_node)
    (module_name model_name : string) : M string :=
  if String.eqb module_name "" then
    lift (current_module_name node)
  else if negb (Str.endswith module_name "models") then
    try_except
      (_module_name_from_django_model_resolution h model_name module_name)
      (fun e =>
         match e with
         | LookupError => ret (module_name ++ ".models")%string
         | ImproperlyConfigured => raise (RuntimeError settings_message)
         | _ => raise e
         end)
  else ret module_name.

Definition in_locals (name : string) (module : module_rec) : bool :=
  existsb (String.eqb name) (mod_locals module).

(** Lines 123-131: [Some result] when the function returns from inside the
    loop over the cache, [None] when that loop ends. *)
Fixpoint for_modules (h : Host) (modules : list module_rec)
    (model_name module_name : string) : M (option (list value)) :=
  match modules with
  | [] => ret None
  | module :: rest =>
      if in_locals model_name module
         && Str.endswith (mod_name module) module_name
      then
        class_defs <- _get_model_class_defs_from_module (recursion_limit h) h
                        module model_name module_name ;;
        match class_defs with
        | cls :: _ => ret (Some [InstanceOf cls])
        | [] => for_modules h rest model_name module_name
        end
      else for_modules h rest model_name module_name
  end.

(** How the body of the loop leaves a candidate: on to the next one, out of
    the loop with [break], or out of the function with [return]. *)
Inductive control : Type :=
  | Continue
  | Break
  | Return (result : list value).

(** Lines 77-131: the branch of the loop body for a constant. *)
Definition const_branch (h : Host) (node : call_node) (arg : arg_node)
    (value : const_value) : M control :=
  match literal_target arg value with
  | Raise AttributeError => ret Break
  | Raise e => raise e
  | Ok (module_name, model_name) =>
      module_name <- resolve_module_name h node module_name model_name ;;
      found <- for_modules h (astroid_cache h) model_name module_name ;;
      match found with
      | Some result => ret (Return result)
      | None => ret Continue
      end
  end.

(** The loop over [all_args] with its [else] clause and the statement after
    it. *)
Fixpoint for_args (h : Host) (node : call_node) (all_args : list arg_node)
    (key_cls : binding) : M (list value) :=
  match all_args with
  | [] => raise UseInferenceDefault
  | arg :: rest =>
      match arg_expr arg with
      | Name _ inferred_values | Attribute _ inferred_values =>
          match inferred_values with
          | SeqYield inferred _ => return_key_cls (Bound (Some inferred))
          | SeqEnd => for_args h node rest (Bound None)
          | SeqRaise => for_args h node rest (Bound None)
          end
      | Const value =>
          how <- const_branch h node arg value ;;
          match how with
          | Continue => for_args h node rest key_cls
          | Break => return_key_cls key_cls
          | Return result => ret result
          end
      | OtherExpr => for_args h node rest key_cls
      end
  end.

Definition is_to (kw : keyword) : bool :=
  match kw_arg kw with
  | Some a => String.eqb a "to"
  | None => false
  end.

Definition all_args (node : call_node) : list arg_node :=
  let keyword_args := map kw_value (filter is_to (keywords node)) in
  args node ++ keyword_args.

Definition infer_key_classes (h : Host) (node : call_node) : M (list value) :=
  for_args h node (all_args node) Unbound.

(** ** Notions used to state the properties *)

(** The name of the nearest [Module] among a node and its ancestors. *)
Fixpoint enclosing_module (n : node) : option string :=
  match n with
  | Node (nodes_Module name) _ => Some name
  | Node _ (Some p) => enclosing_module p
  | Node _ None => None
  end.

(** The first value of [arg.infer()], for a name or an attribute access. *)
Definition first_inferred (arg : arg_node) : option inferred :=
  match arg_expr arg with
  | Name _ (SeqYield v _) | Attribute _ (SeqYield v _) => Some v
  | _ => None
  end.

(** A candidate the loop passes over without a lookup: a name or attribute
    access whose inference fails or yields nothing, or an expression of
    another class. *)
Definition passed_over (arg : arg_node) : bool :=
  match arg_expr arg with
  | Name _ (SeqYield _ _) | Attribute _ (SeqYield _ _) => false
  | Const _ => false
  | _ => true
  end.

(** [cls] is reached from [module] for [model_name]: it is a model class
    among the definitions the lookup returns, or it is reached from a module
    that one of the returned from-imports leads to. *)
Inductive reaches (h : Host) (model_name : string)
    : module_rec -> class_def -> Prop :=
  | reaches_here module cls :
      In (DefClass cls) (mod_lookup module model_name) ->
      node_is_subclass h cls ["django.db.models.base.Model"] = true ->
      reaches h model_name module cls
  | reaches_import module modname imported_module cls :
      In (DefImportFrom modname) (mod_lookup module model_name) ->
      do_import_module h modname = Some imported_module ->
      reaches h model_name imported_module cls ->
      reaches h model_name module cls.

(** Every chain of from-imports of [model_name] that starts at [module] has
    at most [d] modules. *)
Inductive chains_within (h : Host) (model_name : string)
    : nat -> module_rec -> Prop :=
  | chains_step d module :
      (forall modname imported_module,
          In (DefImportFrom modname) (mod_lookup module model_name) ->
          do_import_module h modname = Some imported_module ->
          chains_within h model_name d imported_module) ->
      chains_within h model_name (S d) module.

Definition visits (module_name : string) (log : list event) : nat :=
  List.length
    (filter (fun ev => match ev with
                       | EvVisit m => String.eqb m module_name
                       | _ => false
                       end) log).

Definition registry_queries (log : list event) : list event :=
  filter (fun ev => match ev with EvRegistry _ _ => true | _ => false end) log.

(** The two parts of a dotted reference. *)
Definition prefix_of (s : string) : string := fst (fst (Str.rpartition s ".")).
Definition class_name_of (s : string) : string := snd (Str.rpartition s ".").

(** The exceptions that can leave the inference tip: the default-inference
    signal, the errors of the statement after the loop, of the walk up the
    tree and of [rpartition], the failures of import following, and the
    configuration error, which carries the fixed message and needs an
    unconfigured framework. *)
Definition escapes (h : Host) (e : exn) : Prop :=
  match e with
  | UseInferenceDefault | UnboundLocalError | AttributeError | TypeError
  | RecursionError | AstroidImportError => True
  | RuntimeError msg => msg = settings_message /\ setup_ok (django h) = false
  | InferenceError | LookupError | ImproperlyConfigured => False
  end.


(** The test of line 127. *)
Definition matches (model_name module_name : string) (module : module_rec)
    : bool :=
  in_locals model_name module && Str.endswith (mod_name module) module_name.

(** The model classes among the nodes of a lookup, in order. *)
Definition model_classes (h : Host) (module_nodes : list module_node)
    : list class_def :=
  flat_map
    (fun module_node =>
       match module_node with
       | DefClass cls =>
           if node_is_subclass h cls ["django.db.models.base.Model"]
           then [cls] else []
       | _ => []
       end) module_nodes.




Definition is_import (module_node : module_node) : bool :=
  match module_node with DefImportFrom _ => true | _ => false end.

Definition is_const (arg : arg_node) : bool :=
  match arg_expr arg with Const _ => true | _ => false end.

Definition is_name_or_attribute (arg : arg_node) : bool :=
  match arg_expr arg with Name _ _ | Attribute _ _ => true | _ => false end.

(** ** Sample programs *)

Module Samples.

Definition every_class_is_a_model (cls : class_def) (names : list string)
    : bool := true.

Definition no_import (modname : string) : option module_rec := None.

Definition unconfigured : Django := mkDjango false (fun _ => None).
Definition empty_registry : Django := mkDjango true (fun _ => None).

Definition clsA : class_def := mkClass "A" "app.models".
Definition clsB : class_def := mkClass "B" "app.models".
Definition clsC : class_def := mkClass "C" "app.models".

(** [class A(models.Model): field = models.ForeignKey(...)] in module
    [app.models]. *)
Definition app_models_tree : node := Node (nodes_Module "app.models") None.
Definition class_A : node := Node (nodes_ClassDef clsA) (Some app_models_tree).
Definition assign_in_A : node := Node nodes_Assign (Some class_A).
Definition the_call : node := Node nodes_Call (Some assign_in_A).

Definition positional (e : expr) : arg_node := mkArg e (Some the_call).
Definition to_keyword (e : expr) : keyword :=
  mkKeyword (Some "to")
    (mkArg e (Some (Node (nodes_Keyword (Some "to")) (Some the_call)))).

Definition foreign_key (positionals : list expr) (named : list keyword)
    : call_node :=
  mkCall (Some assign_in_A) (Attribute "ForeignKey" SeqEnd)
    (map positional positionals) named.

Definition lookup_table (table : list (string * list module_node))
    (name : string) : list module_node :=
  match find (fun entry => String.eqb (fst entry) name) table with
  | Some entry => snd entry
  | None => []
  end.

Definition module_of (name : string) (table : list (string * list module_node))
    : module_rec :=
  mkModule name (map fst table) (lookup_table table).

Definition app_models : module_rec :=
  module_of "app.models"
    [("A", [DefClass clsA]); ("B", [DefClass clsB]); ("C", [DefClass clsC])].

Definition host_app (dj : Django) : Host :=
  mkHost every_class_is_a_model [app_models] no_import dj 1000.

(** [field = models.ForeignKey(B, "C")] *)
Definition call_B_then_C : call_node :=
  foreign_key [Name "B" (SeqYield (InfClass clsB) SeqEnd); Const (CStr "C")] [].

(** [field = models.ForeignKey(42)] *)
Definition call_42 : call_node := foreign_key [Const (CInt 42)] [].

(** [field = models.ForeignKey(".B")] *)
Definition call_dot_B : call_node := foreign_key [Const (CStr ".B")] [].

(** [field = models.ForeignKey("otherapp.B")] *)
Definition call_otherapp_B : call_node :=
  foreign_key [Const (CStr "otherapp.B")] [].

(** [field = models.ForeignKey("custommodels.B")] *)
Definition call_custommodels_B : call_node :=
  foreign_key [Const (CStr "custommodels.B")] [].

Definition otherapp_models : module_rec :=
  module_of "otherapp.models" [("B", [DefClass (mkClass "B" "otherapp.models")])].

Definition host_otherapp (dj : Django) : Host :=
  mkHost every_class_is_a_model [app_models; otherapp_models] no_import dj 1000.

(** [app.models] re-exports [B] with [from app.base import B]. *)
Definition clsB_base : class_def := mkClass "B" "app.base".
Definition app_base : module_rec :=
  module_of "app.base" [("B", [DefClass clsB_base])].
Definition app_models_forwarding : module_rec :=
  module_of "app.models" [("A", [DefClass clsA]); ("B", [DefImportFrom "app.base"])].
Definition host_forwarding : Host :=
  mkHost every_class_is_a_model [app_models_forwarding; app_base]
    (fun modname => if String.eqb modname "app.base" then Some app_base else None)
    empty_registry 1000.

(** Module [a] has [from b import B] and module [b] has [from a import B]. *)
Definition cyclic_a : module_rec := module_of "a" [("B", [DefImportFrom "b"])].
Definition cyclic_b : module_rec := module_of "b" [("B", [DefImportFrom "a"])].
Definition host_cyclic : Host :=
  mkHost every_class_is_a_model [cyclic_a; cyclic_b]
    (fun modname =>
       if String.eqb modname "a" then Some cyclic_a
       else if String.eqb modname "b" then Some cyclic_b
       else None)
    empty_registry 1000.

(** [top] imports [B] from [left] and from [right] (in the two branches of a
    conditional), and both import it from [bottom], which defines it. *)
Definition clsB_bottom : class_def := mkClass "B" "bottom".
Definition diamond_bottom : module_rec :=
  module_of "bottom" [("B", [DefClass clsB_bottom])].
Definition diamond_left : module_rec :=
  module_of "left" [("B", [DefImportFrom "bottom"])].
Definition diamond_right : module_rec :=
  module_of "right" [("B", [DefImportFrom "bottom"])].
Definition diamond_top : module_rec :=
  module_of "top" [("B", [DefImportFrom "left"; DefImportFrom "right"])].
Definition host_diamond : Host :=
  mkHost every_class_is_a_model [diamond_top]
    (fun modname =>
       if String.eqb modname "left" then Some diamond_left
       else if String.eqb modname "right" then Some diamond_right
       else if String.eqb modname "bottom" then Some diamond_bottom
       else None)
    empty_registry 1000.

(** [class A(models.Model): owner = models.ForeignKey("self")] in a module
    named [models], while the cache lists [shop.models], which has a model
    [A] of its own, before it. *)
Definition clsA_models : class_def := mkClass "A" "models".
Definition clsA_shop : class_def := mkClass "A" "shop.models".
Definition models_tree : node := Node (nodes_Module "models") None.
Definition assign_in_models_A : node :=
  Node nodes_Assign (Some (Node (nodes_ClassDef clsA_models) (Some models_tree))).
Definition call_in_models_A : node := Node nodes_Call (Some assign_in_models_A).
Definition self_positional : call_node :=
  mkCall (Some assign_in_models_A) (Attribute "ForeignKey" SeqEnd)
    [mkArg (Const (CStr "self")) (Some call_in_models_A)] [].
Definition self_keyword : call_node :=
  mkCall (Some assign_in_models_A) (Attribute "ForeignKey" SeqEnd) []
    [mkKeyword (Some "to")
       (mkArg (Const (CStr "self"))
          (Some (Node (nodes_Keyword (Some "to")) (Some call_in_models_A))))].
Definition plain_models : module_rec :=
  module_of "models" [("A", [DefClass clsA_models])].
Definition shop_models : module_rec :=
  module_of "shop.models" [("A", [DefClass clsA_shop])].
Definition host_shop_first : Host :=
  mkHost every_class_is_a_model [shop_models; plain_models] no_import
    empty_registry 1000.
Definition host_models_only : Host :=
  mkHost every_class_is_a_model [plain_models] no_import empty_registry 1000.

Definition call_auth_User : call_node :=
  foreign_key [Const (CStr "auth.User")] [].




(** A host in which the only base every class has is a class of qualified
    name [.Model] (a class [Model] of a module with an empty name):
    [node_is_subclass] holds when [".Model"] is among the names asked for. *)
Definition derives_from_dot_Model (cls : class_def) (names : list string)
    : bool :=
  existsb (String.eqb ".Model") names.
Definition host_dot_Model : Host :=
  mkHost derives_from_dot_Model [app_models] no_import empty_registry 1000.


End Samples.

(** * Properties *)

(** ** Strings *)

Module StrFacts.

Lemma prefix_dot (a : ascii) (s : string) :
  String.prefix "." (String a s) = true <-> a = "."%char.
Proof.
  change (String.prefix "." (String a s))
    with (if ascii_dec "." a then String.prefix "" s else false).
  destruct (ascii_dec "." a) as [e | n].
  - split; [intros _; now symmetry | intros _; now destruct s].
  - split; [discriminate | intros ->; now elim n].
Qed.

Lemma contains_cons (a : ascii) (s : string) :
  Str.contains (String a s) "." = true <->
  a = "."%char \/ Str.contains s "." = true.
Proof.
  cbn [Str.contains].
  destruct (String.prefix "." (String a s)) eqn:E.
  - apply prefix_dot in E. tauto.
  - split; [tauto |]. intros [-> | H]; [| exact H].
    assert (String.prefix "." (String "." s) = true) as E' by now apply prefix_dot.
    congruence.
Qed.

Lemma contains_app_dot (p c : string) :
  Str.contains (p ++ "." ++ c) "." = true.
Proof.
  induction p as [| a p IH]; apply contains_cons; [now left | now right].
Qed.

Lemma rsplit_none (s : string) :
  Str.rsplit_last s "." = None -> Str.contains s "." = false.
Proof.
  induction s as [| a s IH]; [reflexivity |].
  cbn [Str.rsplit_last].
  destruct (Str.rsplit_last s ".") as [[head tail] |]; [discriminate |].
  destruct (String.prefix "." (String a s)) eqn:E; [discriminate |].
  intros _. cbn [Str.contains]. rewrite E. now apply IH.
Qed.

Lemma rsplit_some (s p c : string) :
  Str.rsplit_last s "." = Some (p, c) ->
  s = (p ++ "." ++ c)%string /\ Str.contains c "." = false.
Proof.
  revert p c. induction s as [| a s IH]; intros p c; [discriminate |].
  cbn [Str.rsplit_last].
  destruct (Str.rsplit_last s ".") as [[head tail] |] eqn:R.
  - intros [= <- <-]. destruct (IH _ _ eq_refl) as [-> Hc].
    split; [reflexivity | exact Hc].
  - destruct (String.prefix "." (String a s)) eqn:E; [| discriminate].
    intros [= <- <-]. apply prefix_dot in E. subst a. simpl.
    split; [reflexivity | now apply rsplit_none].
Qed.

Lemma rsplit_app_dot (p c : string) :
  Str.contains c "." = false ->
  Str.rsplit_last (p ++ "." ++ c) "." = Some (p, c).
Proof.
  intros Hc.
  assert (Str.rsplit_last c "." = None) as Rc.
  { destruct (Str.rsplit_last c ".") as [[head tail] |] eqn:R; [| reflexivity].
    apply rsplit_some in R. destruct R as [-> _].
    rewrite contains_app_dot in Hc. discriminate. }
  induction p as [| a p IH].
  - simpl. rewrite Rc. destruct c; reflexivity.
  - change (String a p ++ "." ++ c)%string with (String a (p ++ "." ++ c)).
    cbn [Str.rsplit_last]. now rewrite IH.
Qed.

(** [rpartition] on a string with a dot: the split at the last dot. *)
Lemma rpartition_dotted (s : string) :
  Str.contains s "." = true ->
  exists p c, Str.rpartition s "." = (p, ".", c) /\
              s = (p ++ "." ++ c)%string /\ Str.contains c "." = false.
Proof.
  intros H. unfold Str.rpartition.
  destruct (Str.rsplit_last s ".") as [[p c] |] eqn:R.
  - exists p, c. split; [reflexivity | now apply rsplit_some].
  - apply rsplit_none in R. congruence.
Qed.

Lemma rpartition_app_dot (p c : string) :
  Str.contains c "." = false ->
  Str.rpartition (p ++ "." ++ c) "." = (p, ".", c).
Proof.
  intros H. unfold Str.rpartition. now rewrite rsplit_app_dot.
Qed.




End StrFacts.

(** ** The classifier *)

Lemma field_names_spec (callee : string) :
  existsb (String.eqb callee) field_names = true <->
  callee = "ForeignKey" \/ callee = "OneToOneField".
Proof.
  unfold field_names. cbn [existsb]. rewrite !orb_true_iff, !String.eqb_eq.
  intuition discriminate.
Qed.

Lemma qualifying_call_parents (h : Host) (node : call_node) :
  is_foreignkey_in_class h node = true ->
  exists cls up,
    call_parent node
    = Some (Node nodes_Assign (Some (Node (nodes_ClassDef cls) up))).
Proof.
  unfold is_foreignkey_in_class.
  destruct (call_parent node) as [[k p] |]; [| discriminate].
  destruct k; try discriminate. cbn.
  destruct p as [[k' up] |]; [| discriminate].
  destruct k' as [| cls | | | | | |]; try discriminate.
  intros _. now exists cls, up.
Qed.

(** C8, as the code has it. [is_foreignkey_in_class] is a total boolean
    function of the call and answers [true] exactly when the call's parent
    is an [Assign], the parent of that assignment is a [ClassDef],
    [node_is_subclass] holds of that class for the two qualified names
    ["django.db.models.base.Model"] and [".Model"], and the callee is a
    [Name] or an [Attribute] called [ForeignKey] or [OneToOneField]; in
    every other case it answers [false]. *)
Theorem is_foreignkey_in_class_iff (h : Host) (node : call_node) :
  is_foreignkey_in_class h node = true <->
  exists cls up callee seq,
    call_parent node
      = Some (Node nodes_Assign (Some (Node (nodes_ClassDef cls) up))) /\
    node_is_subclass h cls ["django.db.models.base.Model"; ".Model"] = true /\
    (func node = Name callee seq \/ func node = Attribute callee seq) /\
    (callee = "ForeignKey" \/ callee = "OneToOneField").
Proof.
  unfold is_foreignkey_in_class. split.
  - destruct (call_parent node) as [[k p] |]; [| discriminate].
    destruct k; try discriminate. cbn.
    destruct p as [[k' up] |]; [| discriminate].
    destruct k' as [| cls | | | | | |]; try discriminate. cbn.
    destruct (node_is_subclass h cls model_qnames) eqn:Hsub; [| discriminate].
    cbn. destruct (func node) as [callee seq | callee seq | |] eqn:Hf;
      try discriminate; intros Hin; apply field_names_spec in Hin;
      exists cls, up, callee, seq; auto.
  - intros (cls & up & callee & seq & -> & Hsub & Hf & Hin). cbn.
    change model_qnames with ["django.db.models.base.Model"; ".Model"].
    rewrite Hsub. cbn. apply field_names_spec in Hin.
    destruct Hf as [-> | ->]; exact Hin.
Qed.

(** C8, as the specification words it, fails: the classifier also accepts
    a class whose base is a class of qualified name [.Model], which is not
    the framework's base model type; the model test of the class lookup
    (line 33), which asks for ["django.db.models.base.Model"] alone, rejects
    that class. *)
Lemma classifier_accepts_a_class_derived_from_dot_Model :
  let h := Samples.host_dot_Model in
  let node := Samples.foreign_key [Const (CStr "B")] [] in
  isinstance_ClassDef (parent_of (call_parent node)) = Some Samples.clsA /\
  node_is_subclass h Samples.clsA ["django.db.models.base.Model"] = false /\
  node_is_subclass h Samples.clsA ["django.db.models.base.Model"; ".Model"]
  = true /\
  is_foreignkey_in_class h node = true.
Proof. cbv zeta. repeat split; vm_compute; reflexivity. Qed.

(** ** Textual references *)

(** C9. A string constant other than ["self"] that contains a dot is split
    at its last dot: the class name is what follows that dot and has no dot
    itself, the prefix is everything before it. *)
Theorem dotted_reference_splits_at_last_dot
    (arg : arg_node) (s : string) :
  s <> "self" ->
  Str.contains s "." = true ->
  exists prefix className,
    literal_target arg (CStr s) = Ok (prefix, className) /\
    s = (prefix ++ "." ++ className)%string /\
    Str.contains className "." = false /\
    forall p c, s = (p ++ "." ++ c)%string -> Str.contains c "." = false ->
                p = prefix /\ c = className.
Proof.
  intros Hself Hdot.
  destruct (StrFacts.rpartition_dotted s Hdot) as (p & c & Hr & Hs & Hc).
  exists p, c. unfold literal_target, eq_self.
  apply String.eqb_neq in Hself. rewrite Hself. cbn. rewrite Hr. cbn.
  split; [reflexivity |]. split; [exact Hs |]. split; [exact Hc |].
  intros p' c' Hs' Hc'.
  assert (Str.rpartition s "." = (p', ".", c')) as Hr'
    by (rewrite Hs'; now apply StrFacts.rpartition_app_dot).
  rewrite Hr in Hr'. split; congruence.
Qed.

Lemma dotted_reference_splits_at_last_dot_witness :
  exists prefix className,
    literal_target (Samples.positional (Const (CStr "otherapp.models.B")))
      (CStr "otherapp.models.B") = Ok (prefix, className) /\
    "otherapp.models.B" = (prefix ++ "." ++ className)%string /\
    Str.contains className "." = false /\
    forall p c, "otherapp.models.B" = (p ++ "." ++ c)%string ->
                Str.contains c "." = false ->
                p = prefix /\ c = className.
Proof.
  apply (dotted_reference_splits_at_last_dot
           (Samples.positional (Const (CStr "otherapp.models.B")))
           "otherapp.models.B");
    [discriminate | reflexivity].
Defined.

Lemma otherapp_models_B_splits :
  literal_target (Samples.positional (Const (CStr "otherapp.models.B")))
    (CStr "otherapp.models.B") = Ok ("otherapp.models", "B").
Proof. reflexivity. Qed.

(** ** The loop over the candidates *)

Lemma bind_ret {A B} (a : A) (f : A -> M B) : bind (ret a) f = f a.
Proof. unfold bind, ret. now destruct (f a). Qed.

Lemma bind_raise {A B} (e : exn) (f : A -> M B) : bind (raise e) f = raise e.
Proof. reflexivity. Qed.

Lemma bind_nil {A B} (r : res A) (f : A -> M B) :
  bind ([], r) f = match r with Ok a => f a | Raise e => raise e end.
Proof. destruct r as [a | e]; [apply (bind_ret a f) | reflexivity]. Qed.

(** Candidates that are passed over leave the loop where it was; [key_cls]
    is unchanged or has become [None]. *)
Lemma for_args_passed_over (h : Host) (node : call_node)
    (pre l : list arg_node) (key_cls : binding) :
  forallb passed_over pre = true ->
  exists key_cls',
    for_args h node (pre ++ l) key_cls = for_args h node l key_cls' /\
    (key_cls' = key_cls \/ key_cls' = Bound None).
Proof.
  revert key_cls. induction pre as [| a pre IH]; intros key_cls Hpre.
  - exists key_cls. split; [reflexivity | now left].
  - cbn [forallb] in Hpre. apply andb_true_iff in Hpre as [Ha Hpre].
    unfold passed_over in Ha. cbn [app for_args].
    destruct (arg_expr a) as [n [| v r |] | n [| v r |] | v |];
      try discriminate;
      try (destruct (IH (Bound None) Hpre) as (k & E & [Hk | Hk]);
           exists k; (split; [exact E | right; exact Hk])).
    destruct (IH key_cls Hpre) as (k & E & Hk). exists k. now split.
Qed.


Lemma for_args_first_inferred (h : Host) (node : call_node) (arg : arg_node)
    (rest : list arg_node) (key_cls : binding) (v : inferred) :
  first_inferred arg = Some v ->
  for_args h node (arg :: rest) key_cls = return_key_cls (Bound (Some v)).
Proof.
  unfold first_inferred. cbn [for_args].
  destruct (arg_expr arg) as [n [| w r |] | n [| w r |] | c |];
    try discriminate; now intros [= ->].
Qed.

(** C1, as the code has it. When a name or attribute-access candidate has
    a class as its first inferred value, and the candidates before it were
    passed over, the loop ends there: the resolver returns an instance of
    that class and never examines the candidates that follow, string
    literals included (no module is entered, the registry is not queried). *)
Theorem direct_inference_ends_the_loop (h : Host) (node : call_node)
    (pre post : list arg_node) (arg : arg_node) (cls : class_def) :
  all_args node = pre ++ arg :: post ->
  forallb passed_over pre = true ->
  first_inferred arg = Some (InfClass cls) ->
  infer_key_classes h node = ([], Ok [InstanceOf cls]).
Proof.
  intros Hall Hpre Hfirst. unfold infer_key_classes. rewrite Hall.
  destruct (for_args_passed_over h node pre (arg :: post) Unbound Hpre)
    as (k & -> & _).
  now rewrite (for_args_first_inferred h node arg post k _ Hfirst).
Qed.

Lemma direct_inference_ends_the_loop_witness :
  infer_key_classes (Samples.host_app Samples.empty_registry)
    Samples.call_B_then_C
  = ([], Ok [InstanceOf Samples.clsB]).
Proof.
  apply (direct_inference_ends_the_loop _ Samples.call_B_then_C []
           [Samples.positional (Const (CStr "C"))]
           (Samples.positional
              (Name "B" (SeqYield (InfClass Samples.clsB) SeqEnd))));
    reflexivity.
Defined.

(** C1, as the specification words it, fails: in
    [field = models.ForeignKey(B, "C")] the literal ["C"] would be matched
    by the class lookup, yet the resolver answers with the class inferred
    for [B]. *)
Lemma later_literal_match_is_not_preferred :
  let h := Samples.host_app Samples.empty_registry in
  let literal := Samples.positional (Const (CStr "C")) in
  is_foreignkey_in_class h Samples.call_B_then_C = true /\
  all_args Samples.call_B_then_C
  = [Samples.positional (Name "B" (SeqYield (InfClass Samples.clsB) SeqEnd));
     literal] /\
  outcome (const_branch h Samples.call_B_then_C literal (CStr "C"))
  = Ok (Return [InstanceOf Samples.clsC]) /\
  outcome (infer_key_classes h Samples.call_B_then_C)
  = Ok [InstanceOf Samples.clsB] /\
  outcome (infer_key_classes h Samples.call_B_then_C)
  <> Ok [InstanceOf Samples.clsC].
Proof.
  cbv zeta. repeat split; try (vm_compute; reflexivity).
  vm_compute. discriminate.
Qed.

(** A [break] out of the constant branch reaches the statement after the
    loop with [key_cls] unassigned or [None]; the default-inference signal
    of the [else] clause is not raised. *)
Lemma break_on_attribute_error (h : Host) (node : call_node)
    (pre rest : list arg_node) (arg : arg_node) (value : const_value) :
  all_args node = pre ++ arg :: rest ->
  forallb passed_over pre = true ->
  arg_expr arg = Const value ->
  literal_target arg value = Raise AttributeError ->
  infer_key_classes h node = ([], Raise UnboundLocalError) \/
  infer_key_classes h node = ([], Raise AttributeError).
Proof.
  intros Hall Hpre Harg Hlit. unfold infer_key_classes. rewrite Hall.
  destruct (for_args_passed_over h node pre (arg :: rest) Unbound Hpre)
    as (k & -> & Hk).
  cbn [for_args]. rewrite Harg. unfold const_branch. rewrite Hlit.
  rewrite bind_ret. destruct Hk as [-> | ->]; [now left | now right].
Qed.

(** C3. [field = models.ForeignKey(42)] in a model class: the constant has
    no [rpartition], the loop is left with [break], and the call ends in
    [UnboundLocalError] where the specification asks for the
    default-inference signal. *)
Theorem non_string_constant_ends_in_unbound_local :
  let h := Samples.host_app Samples.empty_registry in
  is_foreignkey_in_class h Samples.call_42 = true /\
  literal_target (Samples.positional (Const (CInt 42))) (CInt 42)
  = Raise AttributeError /\
  infer_key_classes h Samples.call_42 = ([], Raise UnboundLocalError) /\
  outcome (infer_key_classes h Samples.call_42) <> Raise UseInferenceDefault.
Proof.
  cbv zeta. repeat split; try (vm_compute; reflexivity).
  vm_compute. discriminate.
Qed.

(** The same happens when the walk up from a ["self"] literal finds no
    parent, and a bytes constant ends the call in [TypeError], which
    nothing catches. *)
Lemma self_without_parents_ends_in_unbound_local :
  let h := Samples.host_app Samples.empty_registry in
  let node :=
    mkCall (Some Samples.assign_in_A) (Attribute "ForeignKey" SeqEnd)
      [mkArg (Const (CStr "self")) None] [] in
  is_foreignkey_in_class h node = true /\
  infer_key_classes h node = ([], Raise UnboundLocalError).
Proof. cbv zeta. split; vm_compute; reflexivity. Qed.

Lemma bytes_constant_ends_in_type_error :
  let h := Samples.host_app Samples.empty_registry in
  let node := Samples.foreign_key [Const (CBytes "app.B")] [] in
  is_foreignkey_in_class h node = true /\
  infer_key_classes h node = ([], Raise TypeError).
Proof. cbv zeta. split; vm_compute; reflexivity. Qed.

(** After a name whose inference yields nothing, [key_cls] is [None] at
    the [break]. *)
Lemma break_after_empty_inference_ends_in_attribute_error :
  let h := Samples.host_app Samples.empty_registry in
  let node := Samples.foreign_key [Name "B" SeqEnd; Const (CInt 42)] [] in
  is_foreignkey_in_class h node = true /\
  infer_key_classes h node = ([], Raise AttributeError).
Proof. cbv zeta. split; vm_compute; reflexivity. Qed.

(** ** What the class lookup does to the registry: nothing *)

Lemma registry_queries_app (l l' : list event) :
  registry_queries (l ++ l') = registry_queries l ++ registry_queries l'.
Proof. apply filter_app. Qed.

Lemma bind_quiet {A B} (m : M A) (f : A -> M B) :
  registry_queries (events m) = [] ->
  (forall a, registry_queries (events (f a)) = []) ->
  registry_queries (events (bind m f)) = [].
Proof.
  destruct m as [log [a | e]]; unfold events, bind; cbn [fst];
    intros Hm Hf; [| exact Hm].
  specialize (Hf a). destruct (f a) as [log' r]. cbn [fst] in *.
  now rewrite registry_queries_app, Hm, Hf.
Qed.

Lemma for_module_nodes_quiet (h : Host)
    (recurse : module_rec -> M (list class_def))
    (module_nodes : list module_node) (class_defs : list class_def) :
  (forall m, registry_queries (events (recurse m)) = []) ->
  registry_queries
    (events (for_module_nodes h recurse module_nodes class_defs)) = [].
Proof.
  intros Hrec. revert class_defs.
  induction module_nodes as [| [cls | modname |] rest IH]; intros class_defs;
    cbn [for_module_nodes]; trivial.
  - now destruct (node_is_subclass h cls _).
  - destruct (do_import_module h modname) as [m |]; [| reflexivity].
    apply bind_quiet; [apply Hrec | intros found; apply IH].
Qed.

Lemma get_model_class_defs_quiet (depth : nat) (h : Host) (module : module_rec)
    (model_name module_name : string) :
  registry_queries
    (events (_get_model_class_defs_from_module depth h module model_name
               module_name)) = [].
Proof.
  revert module. induction depth as [| depth IH]; intros module;
    cbn [_get_model_class_defs_from_module]; [reflexivity |].
  apply bind_quiet; [reflexivity | intros _].
  apply for_module_nodes_quiet. intros m. apply IH.
Qed.

Lemma for_modules_quiet (h : Host) (modules : list module_rec)
    (model_name module_name : string) :
  registry_queries (events (for_modules h modules model_name module_name)) = [].
Proof.
  induction modules as [| module rest IH]; cbn [for_modules]; [reflexivity |].
  destruct (in_locals model_name module && _); [| exact IH].
  apply bind_quiet; [apply get_model_class_defs_quiet |].
  intros [| cls defs]; [exact IH | reflexivity].
Qed.

(** ** Module-hint resolution for dotted references *)

Lemma literal_target_string (arg : arg_node) (s : string) :
  s <> "self" ->
  literal_target arg (CStr s) = Ok (prefix_of s, class_name_of s).
Proof.
  intros Hself. unfold literal_target, eq_self, prefix_of, class_name_of.
  apply String.eqb_neq in Hself. rewrite Hself. cbn.
  now destruct (Str.rpartition s ".") as [[p sep] c].
Qed.

Lemma const_branch_string (h : Host) (node : call_node) (arg : arg_node)
    (s : string) :
  s <> "self" ->
  const_branch h node arg (CStr s)
  = (module_name <- resolve_module_name h node (prefix_of s)
                      (class_name_of s) ;;
     found <- for_modules h (astroid_cache h) (class_name_of s) module_name ;;
     match found with
     | Some result => ret (Return result)
     | None => ret Continue
     end).
Proof.
  intros Hself. unfold const_branch.
  now rewrite (literal_target_string arg s Hself).
Qed.



Lemma registry_events (h : Host) (model_name module_name : string) :
  events (_module_name_from_django_model_resolution h model_name module_name)
  = [EvRegistry model_name module_name].
Proof.
  unfold _module_name_from_django_model_resolution.
  destruct (setup_ok (django h)); cbn; [| reflexivity].
  destruct (get_app_config (django h) module_name) as [app |]; [| reflexivity].
  now destruct (app model_name).
Qed.

Lemma endswith_empty_models : Str.endswith "" "models" = false.
Proof. reflexivity. Qed.

Lemma resolve_module_name_quiet (h : Host) (node : call_node)
    (module_name model_name : string) :
  module_name = "" \/ Str.endswith module_name "models" = true ->
  registry_queries
    (events (resolve_module_name h node module_name model_name)) = [].
Proof.
  unfold resolve_module_name. intros [-> | Hends]; [reflexivity |].
  destruct (String.eqb module_name ""); [reflexivity |].
  now rewrite Hends.
Qed.

Lemma const_branch_quiet (h : Host) (node : call_node) (arg : arg_node)
    (value : const_value) :
  (forall module_name model_name,
      literal_target arg value = Ok (module_name, model_name) ->
      module_name = "" \/ Str.endswith module_name "models" = true) ->
  registry_queries (events (const_branch h node arg value)) = [].
Proof.
  intros Hquiet. unfold const_branch.
  destruct (literal_target arg value) as [[module_name model_name] | e].
  - apply bind_quiet.
    + apply resolve_module_name_quiet.
      now apply (Hquiet module_name model_name).
    + intros hint. apply bind_quiet; [apply for_modules_quiet |].
      now intros [result |].
  - now destruct e.
Qed.









(** A reference with an empty prefix never gets that far: for [".B"] the
    registry, which would answer not-found, is not consulted, and the hint
    is the current module's name. *)
Lemma empty_prefix_uses_current_module :
  let h := Samples.host_app Samples.empty_registry in
  is_foreignkey_in_class h Samples.call_dot_B = true /\
  Str.contains ".B" "." = true /\
  Str.rpartition ".B" "." = ("", ".", "B") /\
  Str.endswith (prefix_of ".B") "models" = false /\
  outcome (_module_name_from_django_model_resolution h "B" "")
  = Raise LookupError /\
  resolve_module_name h Samples.call_dot_B (prefix_of ".B")
    (class_name_of ".B") = ([], Ok "app.models") /\
  (prefix_of ".B" ++ ".models")%string = ".models".
Proof. cbv zeta. repeat split; vm_compute; reflexivity. Qed.

(** C10. For a string candidate (other than ["self"]) whose prefix ends
    with the characters ["models"], with or without a dot before them, the
    prefix is the module hint as it stands, the class lookup runs with it,
    and handling the candidate queries the registry not at all. Conversely,
    whenever handling a constant does query the registry, the module name
    the constant yields does not end with ["models"]. (A prefix that ends
    with ["models"] is not empty, so the string has a dot.) *)
Theorem models_suffix_prefix_is_the_hint (h : Host) (node : call_node)
    (arg : arg_node) (s : string) :
  s <> "self" ->
  Str.endswith (prefix_of s) "models" = true ->
  resolve_module_name h node (prefix_of s) (class_name_of s)
  = ([], Ok (prefix_of s)) /\
  const_branch h node arg (CStr s)
  = (found <- for_modules h (astroid_cache h) (class_name_of s)
                (prefix_of s) ;;
     match found with
     | Some result => ret (Return result)
     | None => ret Continue
     end) /\
  registry_queries (events (const_branch h node arg (CStr s))) = [] /\
  forall arg' value',
    registry_queries (events (const_branch h node arg' value')) <> [] ->
    exists module_name model_name,
      literal_target arg' value' = Ok (module_name, model_name) /\
      Str.endswith module_name "models" = false.
Proof.
  intros Hself Hends.
  assert (resolve_module_name h node (prefix_of s) (class_name_of s)
          = ([], Ok (prefix_of s))) as Hres.
  { unfold resolve_module_name.
    destruct (String.eqb (prefix_of s) "") eqn:E.
    - apply String.eqb_eq in E. rewrite E in Hends. discriminate.
    - now rewrite Hends. }
  split; [exact Hres |]. split; [| split].
  - rewrite (const_branch_string h node arg s Hself), Hres.
    apply bind_nil.
  - apply const_branch_quiet. intros module_name model_name.
    rewrite (literal_target_string arg s Hself). intros [= <- <-].
    now right.
  - intros arg' value' Hqueried.
    destruct (literal_target arg' value') as [[module_name model_name] | e]
      eqn:Hlit.
    + exists module_name, model_name. split; [reflexivity |].
      destruct (Str.endswith module_name "models") eqn:E; [| reflexivity].
      elim Hqueried. apply const_branch_quiet.
      intros mn md. rewrite Hlit. intros [= <- <-]. now right.
    + elim Hqueried. apply const_branch_quiet.
      intros mn md. rewrite Hlit. discriminate.
Qed.

Lemma models_suffix_prefix_is_the_hint_witness :
  resolve_module_name (Samples.host_otherapp Samples.unconfigured)
    Samples.call_custommodels_B "custommodels" "B"
  = ([], Ok "custommodels") /\
  registry_queries
    (events (const_branch (Samples.host_otherapp Samples.unconfigured)
               Samples.call_custommodels_B
               (Samples.positional (Const (CStr "custommodels.B")))
               (CStr "custommodels.B"))) = [].
Proof.
  destruct (models_suffix_prefix_is_the_hint
              (Samples.host_otherapp Samples.unconfigured)
              Samples.call_custommodels_B
              (Samples.positional (Const (CStr "custommodels.B")))
              "custommodels.B")
    as (Hhint & _ & Hquiet & _);
    try reflexivity; try (vm_compute; discriminate).
  split; [exact Hhint | exact Hquiet].
Defined.

(** ** The enclosing module and self-references *)

Lemma frame_spec (n : node) :
  forall c, frame n = Ok c ->
            height c <= height n /\ enclosing_module c = enclosing_module n.
Proof.
  induction n as [k | k p IH] using node_chain_ind; intros c; cbn [frame].
  - destruct (is_frame_kind k); [| discriminate]. intros [= <-]. now split.
  - destruct (is_frame_kind k) eqn:Hk.
    + intros [= <-]. now split.
    + intros Hc. destruct (IH c Hc) as [Hh He]. cbn [height]. split; [lia |].
      rewrite He. now destruct k.
Qed.

Lemma frame_total (n : node) (name : string) :
  enclosing_module n = Some name -> exists c, frame n = Ok c.
Proof.
  induction n as [k | k p IH] using node_chain_ind; cbn [frame].
  - destruct k; try discriminate. intros _. now eexists.
  - destruct (is_frame_kind k) eqn:Hk; [intros _; now eexists |].
    destruct k; try discriminate Hk; exact IH.
Qed.

Lemma while_not_Module_spec (turns : nat) :
  forall c name,
    height c <= turns ->
    enclosing_module c = Some name ->
    exists m, while_not_Module turns c = Ok m /\ get_name (Some m) = Ok name.
Proof.
  induction turns as [| turns IH]; intros [k p] name Hh He.
  - destruct p as [p |]; [cbn in Hh; lia |].
    destruct k; try discriminate He. injection He as ->.
    eexists. split; reflexivity.
  - destruct (isinstance_Module (Node k p)) eqn:Hm.
    + destruct k; try discriminate Hm. injection He as ->.
      exists (Node (nodes_Module name) p).
      split; [now destruct p | reflexivity].
    + assert (exists q, p = Some q /\ enclosing_module q = Some name)
        as (q & -> & Hq).
      { destruct p as [q |]; destruct k; try discriminate; now exists q. }
      destruct (frame_total q name Hq) as [c Hc].
      destruct (frame_spec q c Hc) as [Hhc Hec].
      destruct (IH c name) as (m & Hw & Hn);
        [cbn in Hh; lia | congruence |].
      exists m. split; [| exact Hn].
      cbn [while_not_Module]. rewrite Hm, Hc. exact Hw.
Qed.

(** The loop of lines 96-100 finds the nearest enclosing module. *)
Lemma current_module_name_spec (node : call_node) (name : string) :
  enclosing_module (as_node node) = Some name ->
  current_module_name node = Ok name.
Proof.
  intros He. unfold current_module_name.
  destruct (frame_total _ name He) as [c Hc]. rewrite Hc. cbn [rbind].
  destruct (frame_spec _ c Hc) as [_ Hec].
  destruct (while_not_Module_spec (height c) c name) as (m & -> & Hn);
    [lia | congruence |].
  exact Hn.
Qed.

(** C7, as the code has it. In a qualifying call whose first examined
    candidate is the literal ["self"], written positionally or as the value
    of the keyword [to], the model name is the name of the enclosing class
    (three or four steps up the parents) and the module hint is the name of
    the module that encloses the call. The resolver then returns what the
    class lookup finds first for that name and hint: the enclosing class
    when that is what the lookup finds. *)
Theorem self_reference_names_the_enclosing_class (h : Host)
    (node : call_node) (cls : class_def) (pre rest : list arg_node)
    (arg : arg_node) (modname : string) :
  is_foreignkey_in_class h node = true ->
  isinstance_ClassDef (parent_of (call_parent node)) = Some cls ->
  enclosing_module (as_node node) = Some modname ->
  all_args node = pre ++ arg :: rest ->
  forallb passed_over pre = true ->
  arg_expr arg = Const (CStr "self") ->
  arg_parent arg = Some (as_node node) \/
  arg_parent arg
  = Some (Node (nodes_Keyword (Some "to")) (Some (as_node node))) ->
  literal_target arg (CStr "self") = Ok ("", cls_name cls) /\
  resolve_module_name h node "" (cls_name cls) = ([], Ok modname) /\
  forall log result,
    for_modules h (astroid_cache h) (cls_name cls) modname
    = (log, Ok (Some result)) ->
    infer_key_classes h node = (log, Ok result).
Proof.
  intros Hq Hcls Hmod Hall Hpre Harg Hparent.
  apply qualifying_call_parents in Hq as (cls' & up & Hcp).
  rewrite Hcp in Hcls. cbn in Hcls. injection Hcls as ->.
  assert (literal_target arg (CStr "self") = Ok ("", cls_name cls)) as Hlit.
  { unfold literal_target. cbn [eq_self]. rewrite String.eqb_refl.
    destruct Hparent as [-> | ->]; unfold as_node; rewrite Hcp; reflexivity. }
  assert (resolve_module_name h node "" (cls_name cls) = ([], Ok modname))
    as Hres.
  { unfold resolve_module_name. cbn [String.eqb].
    now rewrite (current_module_name_spec node modname Hmod). }
  split; [exact Hlit |]. split; [exact Hres |].
  intros log result Hfound. unfold infer_key_classes. rewrite Hall.
  destruct (for_args_passed_over h node pre (arg :: rest) Unbound Hpre)
    as (k & -> & _).
  cbn [for_args]. rewrite Harg. unfold const_branch.
  rewrite Hlit, Hres, bind_nil, Hfound. cbn. now rewrite !app_nil_r.
Qed.

Lemma self_reference_names_the_enclosing_class_witness :
  (literal_target
     (mkArg (Const (CStr "self"))
        (Some (Node (nodes_Keyword (Some "to"))
                 (Some Samples.call_in_models_A))))
     (CStr "self") = Ok ("", "A") /\
   resolve_module_name Samples.host_models_only Samples.self_keyword "" "A"
   = ([], Ok "models")) /\
  infer_key_classes Samples.host_models_only Samples.self_keyword
  = ([EvVisit "models"], Ok [InstanceOf Samples.clsA_models]).
Proof.
  destruct (self_reference_names_the_enclosing_class
              Samples.host_models_only Samples.self_keyword
              Samples.clsA_models [] []
              (mkArg (Const (CStr "self"))
                 (Some (Node (nodes_Keyword (Some "to"))
                          (Some Samples.call_in_models_A))))
              "models")
    as (Hname & Hhint & Hfound); try reflexivity; [now right |].
  split; [split; [exact Hname | exact Hhint] |].
  apply Hfound. reflexivity.
Defined.

Lemma self_positional_in_models_only :
  infer_key_classes Samples.host_models_only Samples.self_positional
  = ([EvVisit "models"], Ok [InstanceOf Samples.clsA_models]).
Proof. vm_compute. reflexivity. Qed.

(** C7, as the specification words it, fails: with the cache listing
    [shop.models] before [models], the self-reference in class [A] of module
    [models] resolves to an instance of the class [A] of [shop.models], in
    the positional and in the keyword form. *)
Lemma self_reference_can_resolve_to_another_class :
  let h := Samples.host_shop_first in
  is_foreignkey_in_class h Samples.self_positional = true /\
  is_foreignkey_in_class h Samples.self_keyword = true /\
  isinstance_ClassDef (parent_of (call_parent Samples.self_positional))
  = Some Samples.clsA_models /\
  isinstance_ClassDef (parent_of (call_parent Samples.self_keyword))
  = Some Samples.clsA_models /\
  outcome (infer_key_classes h Samples.self_positional)
  = Ok [InstanceOf Samples.clsA_shop] /\
  outcome (infer_key_classes h Samples.self_keyword)
  = Ok [InstanceOf Samples.clsA_shop] /\
  InstanceOf Samples.clsA_shop <> InstanceOf Samples.clsA_models.
Proof.
  cbv zeta. repeat split; try (vm_compute; reflexivity).
  vm_compute. discriminate.
Qed.

(** ** The class lookup *)

Lemma outcome_bind_ok {A B} (m : M A) (f : A -> M B) (b : B) :
  outcome (bind m f) = Ok b ->
  exists a, outcome m = Ok a /\ outcome (f a) = Ok b.
Proof.
  destruct m as [log [a | e]]; unfold outcome, bind; cbn [snd];
    [| discriminate].
  intros H. exists a. split; [reflexivity |]. now destruct (f a).
Qed.

Lemma for_module_nodes_reaches (h : Host) (model_name : string)
    (module : module_rec) (recurse : module_rec -> M (list class_def))
    (module_nodes : list module_node) :
  (forall m found, outcome (recurse m) = Ok found ->
                   forall cls, In cls found -> reaches h model_name m cls) ->
  (forall x, In x module_nodes -> In x (mod_lookup module model_name)) ->
  forall class_defs found,
    outcome (for_module_nodes h recurse module_nodes class_defs) = Ok found ->
    forall cls, In cls found ->
                In cls class_defs \/ reaches h model_name module cls.
Proof.
  intros Hrec. induction module_nodes as [| x rest IH];
    intros Hsub class_defs found; cbn [for_module_nodes].
  - intros [= <-] cls Hin. now left.
  - assert (forall y, In y rest -> In y (mod_lookup module model_name))
      as Hsub' by (intros y Hy; apply Hsub; now right).
    destruct x as [c | modname |].
    + destruct (node_is_subclass h c _) eqn:Hmodel.
      * intros Hout cls Hin.
        destruct (IH Hsub' _ _ Hout cls Hin) as [Hacc | Hr]; [| now right].
        apply in_app_or in Hacc as [Hacc | [<- | []]]; [now left |].
        right. apply reaches_here; [apply Hsub; now left | exact Hmodel].
      * apply IH, Hsub'.
    + destruct (do_import_module h modname) as [m |] eqn:Himp;
        [| discriminate].
      intros Hout cls Hin.
      apply outcome_bind_ok in Hout as (found' & Hfound' & Hout).
      destruct (IH Hsub' _ _ Hout cls Hin) as [Hacc | Hr]; [| now right].
      apply in_app_or in Hacc as [Hacc | Hacc]; [now left |].
      right. apply (reaches_import h model_name module modname m);
        [apply Hsub; now left | exact Himp |].
      exact (Hrec m found' Hfound' cls Hacc).
    + apply IH, Hsub'.
Qed.

Lemma get_model_class_defs_reaches (depth : nat) (h : Host)
    (model_name module_name : string) :
  forall module found,
    outcome (_get_model_class_defs_from_module depth h module model_name
               module_name) = Ok found ->
    forall cls, In cls found -> reaches h model_name module cls.
Proof.
  induction depth as [| depth IH]; intros module found;
    cbn [_get_model_class_defs_from_module]; [discriminate |].
  intros Hout cls Hin.
  apply outcome_bind_ok in Hout as (_ & _ & Hout).
  destruct (for_module_nodes_reaches h model_name module _ _ IH
              (fun x Hx => Hx) [] found Hout cls Hin) as [[] | Hr].
  exact Hr.
Qed.

(** C5, as the code has it. Whatever the class lookup returns is exactly
    one instance, of a model class reached (directly, or through
    from-imports) from a cached module whose symbol table has the class
    name and whose dotted path ends with the module hint. The class itself
    may be defined in a module whose path does not end with the hint. *)
Theorem class_lookup_result_is_reached_from_a_matching_module (h : Host)
    (modules : list module_rec) (model_name module_name : string)
    (result : list value) :
  outcome (for_modules h modules model_name module_name) = Ok (Some result) ->
  exists module cls,
    result = [InstanceOf cls] /\
    In module modules /\
    in_locals model_name module = true /\
    Str.endswith (mod_name module) module_name = true /\
    reaches h model_name module cls.
Proof.
  induction modules as [| module rest IH]; cbn [for_modules];
    [discriminate |].
  assert (outcome (for_modules h rest model_name module_name)
          = Ok (Some result) ->
          exists module0 cls,
            result = [InstanceOf cls] /\ In module0 (module :: rest) /\
            in_locals model_name module0 = true /\
            Str.endswith (mod_name module0) module_name = true /\
            reaches h model_name module0 cls) as Hrest.
  { intros H. destruct (IH H) as (m & cls & ? & ? & ? & ? & ?).
    exists m, cls. repeat split; trivial. now right. }
  destruct (in_locals model_name module
            && Str.endswith (mod_name module) module_name) eqn:Hmatch;
    [| exact Hrest].
  apply andb_true_iff in Hmatch as [Hlocals Hends].
  intros Hout. apply outcome_bind_ok in Hout as (found & Hfound & Hout).
  destruct found as [| cls found]; [exact (Hrest Hout) |].
  injection Hout as <-. exists module, cls.
  repeat split; trivial; [now left |].
  apply (get_model_class_defs_reaches _ h model_name module_name module
           (cls :: found) Hfound). now left.
Qed.

Lemma class_lookup_result_is_reached_from_a_matching_module_witness :
  exists module cls,
    [InstanceOf Samples.clsB_base] = [InstanceOf cls] /\
    In module (astroid_cache Samples.host_forwarding) /\
    in_locals "B" module = true /\
    Str.endswith (mod_name module) "app.models" = true /\
    reaches Samples.host_forwarding "B" module cls.
Proof.
  apply (class_lookup_result_is_reached_from_a_matching_module
           Samples.host_forwarding (astroid_cache Samples.host_forwarding)
           "B" "app.models").
  reflexivity.
Defined.

(** C5, as the specification words it, fails: [app.models] re-exports [B]
    from [app.base]; the lookup for [B] with hint [app.models] returns the
    class defined in [app.base], a module whose path does not end with the
    hint. *)
Lemma forwarded_class_comes_from_a_non_matching_module :
  let h := Samples.host_forwarding in
  outcome (for_modules h (astroid_cache h) "B" "app.models")
  = Ok (Some [InstanceOf Samples.clsB_base]) /\
  cls_module Samples.clsB_base = mod_name Samples.app_base /\
  In (DefClass Samples.clsB_base) (mod_lookup Samples.app_base "B") /\
  Str.endswith (mod_name Samples.app_base) "app.models" = false.
Proof.
  cbv zeta. repeat split; try (vm_compute; reflexivity).
  cbn. now left.
Qed.

(** ** Following from-imports: when the recursion ends *)

Lemma for_module_nodes_ext (h : Host)
    (recurse recurse' : module_rec -> M (list class_def))
    (module_nodes : list module_node) :
  (forall modname m,
      In (DefImportFrom modname) module_nodes ->
      do_import_module h modname = Some m ->
      recurse m = recurse' m) ->
  forall class_defs,
    for_module_nodes h recurse module_nodes class_defs
    = for_module_nodes h recurse' module_nodes class_defs.
Proof.
  induction module_nodes as [| x rest IH]; intros Hagree class_defs;
    cbn [for_module_nodes]; [reflexivity |].
  assert (forall modname m,
             In (DefImportFrom modname) rest ->
             do_import_module h modname = Some m ->
             recurse m = recurse' m) as Hagree'
    by (intros modname m Hin; apply Hagree; now right).
  destruct x as [cls | modname |].
  - destruct (node_is_subclass h cls _); now apply IH.
  - destruct (do_import_module h modname) as [m |] eqn:Himp; [| reflexivity].
    rewrite (Hagree modname m (or_introl eq_refl) Himp).
    unfold bind. destruct (recurse' m) as [log [found | e]]; [| reflexivity].
    now rewrite (IH Hagree').
  - now apply IH.
Qed.

Lemma for_module_nodes_no_recursion_error (h : Host)
    (recurse : module_rec -> M (list class_def))
    (module_nodes : list module_node) :
  (forall modname m,
      In (DefImportFrom modname) module_nodes ->
      do_import_module h modname = Some m ->
      outcome (recurse m) <> Raise RecursionError) ->
  forall class_defs,
    outcome (for_module_nodes h recurse module_nodes class_defs)
    <> Raise RecursionError.
Proof.
  induction module_nodes as [| x rest IH]; intros Hok class_defs;
    cbn [for_module_nodes]; [discriminate |].
  assert (forall modname m,
             In (DefImportFrom modname) rest ->
             do_import_module h modname = Some m ->
             outcome (recurse m) <> Raise RecursionError) as Hok'
    by (intros modname m Hin; apply Hok; now right).
  destruct x as [cls | modname |].
  - destruct (node_is_subclass h cls _); now apply IH.
  - destruct (do_import_module h modname) as [m |] eqn:Himp; [| discriminate].
    pose proof (Hok modname m (or_introl eq_refl) Himp) as Hm.
    unfold bind. destruct (recurse m) as [log [found | e]].
    + specialize (IH Hok' (class_defs ++ found)).
      now destruct (for_module_nodes h recurse rest (class_defs ++ found)).
    + exact Hm.
  - now apply IH.
Qed.

Lemma chains_within_enough (h : Host) (model_name module_name : string)
    (d : nat) (module : module_rec) :
  chains_within h model_name d module ->
  forall depth,
    d <= depth ->
    _get_model_class_defs_from_module depth h module model_name module_name
    = _get_model_class_defs_from_module d h module model_name module_name /\
    outcome (_get_model_class_defs_from_module depth h module model_name
               module_name) <> Raise RecursionError.
Proof.
  induction 1 as [d module _ IH]. intros [| depth] Hle; [lia |].
  assert (d <= depth) as Hle' by lia.
  cbn [_get_model_class_defs_from_module]. split.
  - pose proof (fun modname m Hin Himp =>
                  proj1 (IH modname m Hin Himp depth Hle')) as Hagree.
    now rewrite (for_module_nodes_ext h _ _ _ Hagree []).
  - unfold bind, tell.
    pose proof (for_module_nodes_no_recursion_error h
                  (fun m => _get_model_class_defs_from_module depth h m
                              model_name module_name)
                  (mod_lookup module model_name)
                  (fun modname m Hin Himp =>
                     proj2 (IH modname m Hin Himp depth Hle')) []) as Hok.
    now destruct (for_module_nodes h _ (mod_lookup module model_name) []).
Qed.

(** C2, as the code has it. There is no visited set: every from-import
    re-enters its target. The recursion ends on its own when the chains of
    from-imports are finite: if every chain that starts at the module has at
    most [d] modules, then at any recursion depth of [d] or more the lookup
    does the same thing as at depth [d] and does not end in
    [RecursionError]. *)
Theorem finite_import_chains_end_the_lookup (h : Host)
    (model_name module_name : string) (d depth : nat) (module : module_rec) :
  chains_within h model_name d module ->
  d <= depth ->
  _get_model_class_defs_from_module depth h module model_name module_name
  = _get_model_class_defs_from_module d h module model_name module_name /\
  outcome (_get_model_class_defs_from_module depth h module model_name
             module_name) <> Raise RecursionError.
Proof.
  intros Hchains Hle. now apply chains_within_enough.
Qed.

Lemma diamond_chains :
  chains_within Samples.host_diamond "B" 3 Samples.diamond_top.
Proof.
  apply chains_step. intros modname m Hin Himp. vm_compute in Hin.
  destruct Hin as [[= <-] | [[= <-] | []]]; vm_compute in Himp;
    injection Himp as <-;
    (apply chains_step; intros modname m Hin Himp; vm_compute in Hin;
     destruct Hin as [[= <-] | []]; vm_compute in Himp;
     injection Himp as <-;
     apply chains_step; intros modname m Hin Himp; vm_compute in Hin;
     destruct Hin as [Hin | []]; discriminate Hin).
Qed.

Lemma finite_import_chains_end_the_lookup_witness :
  _get_model_class_defs_from_module 1000 Samples.host_diamond
    Samples.diamond_top "B" "top"
  = _get_model_class_defs_from_module 3 Samples.host_diamond
      Samples.diamond_top "B" "top" /\
  outcome (_get_model_class_defs_from_module 1000 Samples.host_diamond
             Samples.diamond_top "B" "top") <> Raise RecursionError.
Proof.
  apply (finite_import_chains_end_the_lookup Samples.host_diamond "B" "top"
           3 1000 Samples.diamond_top).
  - exact diamond_chains.
  - apply Nat.leb_le. vm_compute. reflexivity.
Defined.

(** Even where the lookup ends, a module reached along two chains is
    entered twice and its class is collected twice. *)
Lemma diamond_visits_bottom_twice :
  _get_model_class_defs_from_module 3 Samples.host_diamond
    Samples.diamond_top "B" "top"
  = ([EvVisit "top"; EvVisit "left"; EvVisit "bottom"; EvVisit "right";
      EvVisit "bottom"],
     Ok [Samples.clsB_bottom; Samples.clsB_bottom]).
Proof. vm_compute. reflexivity. Qed.

Lemma outcome_bind_raise {A B} (m : M A) (f : A -> M B) (e : exn) :
  outcome m = Raise e -> outcome (bind m f) = Raise e.
Proof.
  destruct m as [log [a | e']]; unfold outcome, bind; cbn [snd];
    intros H; [discriminate H | now injection H as ->].
Qed.

(** On the cycle [a -> b -> a] the recursion never ends on its own: at
    every depth the interpreter allows, it runs out of depth. *)
Lemma cyclic_imports_exhaust_any_depth (depth : nat) (module_name : string) :
  outcome (_get_model_class_defs_from_module depth Samples.host_cyclic
             Samples.cyclic_a "B" module_name) = Raise RecursionError /\
  outcome (_get_model_class_defs_from_module depth Samples.host_cyclic
             Samples.cyclic_b "B" module_name) = Raise RecursionError.
Proof.
  induction depth as [| depth [IHa IHb]]; [now split |].
  split; cbn [_get_model_class_defs_from_module];
    unfold bind at 1; unfold tell;
    change (mod_lookup Samples.cyclic_a "B") with [DefImportFrom "b"];
    change (mod_lookup Samples.cyclic_b "B") with [DefImportFrom "a"];
    cbn [for_module_nodes];
    change (do_import_module Samples.host_cyclic "b")
      with (Some Samples.cyclic_b);
    change (do_import_module Samples.host_cyclic "a")
      with (Some Samples.cyclic_a).
  - pose proof (outcome_bind_raise _
                  (fun found => for_module_nodes Samples.host_cyclic
                     (fun m => _get_model_class_defs_from_module depth
                                 Samples.host_cyclic m "B" module_name)
                     [] ([] ++ found)) _ IHb) as H.
    unfold outcome in *. now destruct (bind _ _).
  - pose proof (outcome_bind_raise _
                  (fun found => for_module_nodes Samples.host_cyclic
                     (fun m => _get_model_class_defs_from_module depth
                                 Samples.host_cyclic m "B" module_name)
                     [] ([] ++ found)) _ IHa) as H.
    unfold outcome in *. now destruct (bind _ _).
Qed.

(** C2, as the specification words it, fails: with [from b import B] in
    module [a] and [from a import B] in module [b], one class lookup enters
    each of the two modules five hundred times and ends in
    [RecursionError]. *)
Lemma cyclic_imports_revisit_modules :
  let h := Samples.host_cyclic in
  mod_lookup Samples.cyclic_a "B" = [DefImportFrom "b"] /\
  mod_lookup Samples.cyclic_b "B" = [DefImportFrom "a"] /\
  recursion_limit h = 1000 /\
  outcome (for_modules h (astroid_cache h) "B" "a") = Raise RecursionError /\
  visits "a" (events (for_modules h (astroid_cache h) "B" "a")) = 500 /\
  visits "b" (events (for_modules h (astroid_cache h) "B" "a")) = 500.
Proof. cbv zeta. repeat split; vm_compute; reflexivity. Qed.

(** * Further properties of the resolver *)

(** ** Which exceptions leave it *)

Lemma outcome_bind_raise_inv {A B} (m : M A) (f : A -> M B) (e : exn) :
  outcome (bind m f) = Raise e ->
  outcome m = Raise e \/
  exists a, outcome m = Ok a /\ outcome (f a) = Raise e.
Proof.
  destruct m as [log [a | e']]; unfold outcome, bind; cbn [snd].
  - intros H. right. exists a. split; [reflexivity |]. now destruct (f a).
  - intros [= ->]. now left.
Qed.

Lemma frame_raises (n : node) (e : exn) :
  frame n = Raise e -> e = AttributeError.
Proof.
  induction n as [k | k p IH] using node_chain_ind; cbn [frame];
    destruct (is_frame_kind k); try discriminate; [now intros [= <-] | exact IH].
Qed.

Lemma while_not_Module_raises (turns : nat) :
  forall c e, while_not_Module turns c = Raise e -> e = AttributeError.
Proof.
  induction turns as [| turns IH]; intros [k p] e; cbn [while_not_Module];
    destruct (isinstance_Module (Node k p)); try discriminate.
  - destruct p; now intros [= <-].
  - destruct p as [p |]; [| now intros [= <-]].
    destruct (frame p) as [c | e'] eqn:Hf; cbn [rbind]; [apply IH |].
    intros [= <-]. exact (frame_raises p e' Hf).
Qed.

Lemma current_module_name_raises (node : call_node) (e : exn) :
  current_module_name node = Raise e -> e = AttributeError.
Proof.
  unfold current_module_name.
  destruct (frame (as_node node)) as [c | e'] eqn:Hf; cbn [rbind].
  - destruct (while_not_Module (height c) c) as [[k p] | e'] eqn:Hw;
      cbn [rbind].
    + unfold get_name. destruct (kind_name k); [discriminate |].
      now intros [= <-].
    + intros [= <-]. exact (while_not_Module_raises _ c e' Hw).
  - intros [= <-]. exact (frame_raises _ e' Hf).
Qed.

Lemma get_parent_raises (o : pyobj) (e : exn) :
  get_parent o = Raise e -> e = AttributeError.
Proof. destruct o as [[k p] |]; [discriminate | now intros [= <-]]. Qed.

Lemma get_name_raises (o : pyobj) (e : exn) :
  get_name o = Raise e -> e = AttributeError.
Proof.
  destruct o as [[k p] |]; cbn; [| now intros [= <-]].
  destruct (kind_name k); [discriminate | now intros [= <-]].
Qed.

Lemma literal_target_raises (arg : arg_node) (value : const_value) (e : exn) :
  literal_target arg value = Raise e -> e = AttributeError \/ e = TypeError.
Proof.
  unfold literal_target. destruct (eq_self value).
  - intros H. left. revert H.
    destruct (is_to_keyword (arg_parent arg));
      repeat match goal with
        | |- rbind (get_parent ?o) _ = _ -> _ =>
            destruct (get_parent o) as [? | ?] eqn:?; cbn [rbind];
            [| intros [= <-]; eapply get_parent_raises; eassumption]
        | |- rbind (get_name ?o) _ = _ -> _ =>
            destruct (get_name o) as [? | ?] eqn:?; cbn [rbind];
            [discriminate | intros [= <-]; eapply get_name_raises; eassumption]
        end.
  - destruct value; cbn; try (intros [= <-]; now (left + right)).
    destruct (Str.rpartition s ".") as [[? ?] ?]. discriminate.
Qed.

Lemma registry_raises (h : Host) (model_name module_name : string) (e : exn) :
  outcome (_module_name_from_django_model_resolution h model_name module_name)
  = Raise e ->
  (e = ImproperlyConfigured /\ setup_ok (django h) = false) \/
  e = LookupError.
Proof.
  unfold _module_name_from_django_model_resolution.
  destruct (setup_ok (django h)); cbn; [| intros [= <-]; now left].
  destruct (get_app_config (django h) module_name) as [app |]; cbn;
    [| intros [= <-]; now right].
  destruct (app model_name); cbn; [discriminate | intros [= <-]; now right].
Qed.

Lemma resolve_module_name_raises (h : Host) (node : call_node)
    (module_name model_name : string) (e : exn) :
  outcome (resolve_module_name h node module_name model_name) = Raise e ->
  e = AttributeError \/
  (e = RuntimeError settings_message /\ setup_ok (django h) = false).
Proof.
  unfold resolve_module_name. destruct (String.eqb module_name "").
  - intros H. left. exact (current_module_name_raises node e H).
  - destruct (negb (Str.endswith module_name "models")); [| discriminate].
    pose proof (registry_raises h model_name module_name) as Hreg.
    destruct (_module_name_from_django_model_resolution h model_name
                module_name) as [log [m | e']]; [discriminate |].
    cbn in Hreg. destruct (Hreg e' eq_refl) as [[-> Hs] | ->]; cbn.
    + intros [= <-]. now right.
    + discriminate.
Qed.

Lemma for_module_nodes_raises (h : Host)
    (recurse : module_rec -> M (list class_def))
    (module_nodes : list module_node) :
  (forall m e, outcome (recurse m) = Raise e ->
               e = RecursionError \/ e = AstroidImportError) ->
  forall class_defs e,
    outcome (for_module_nodes h recurse module_nodes class_defs) = Raise e ->
    e = RecursionError \/ e = AstroidImportError.
Proof.
  intros Hrec. induction module_nodes as [| [cls | modname |] rest IH];
    intros class_defs e; cbn [for_module_nodes]; try discriminate;
    try apply IH.
  - destruct (node_is_subclass h cls _); apply IH.
  - destruct (do_import_module h modname) as [m |];
      [| intros [= <-]; now right].
    intros H. apply outcome_bind_raise_inv in H as [H | (found & _ & H)];
      [exact (Hrec m e H) | exact (IH _ e H)].
Qed.

Lemma get_model_class_defs_raises (depth : nat) (h : Host)
    (model_name module_name : string) :
  forall module e,
    outcome (_get_model_class_defs_from_module depth h module model_name
               module_name) = Raise e ->
    e = RecursionError \/ e = AstroidImportError.
Proof.
  induction depth as [| depth IH]; intros module e;
    cbn [_get_model_class_defs_from_module]; [intros [= <-]; now left |].
  intros H. apply outcome_bind_raise_inv in H as [H | (_ & _ & H)];
    [discriminate |].
  exact (for_module_nodes_raises h _ _ IH [] e H).
Qed.

Lemma for_modules_raises (h : Host) (modules : list module_rec)
    (model_name module_name : string) (e : exn) :
  outcome (for_modules h modules model_name module_name) = Raise e ->
  e = RecursionError \/ e = AstroidImportError.
Proof.
  induction modules as [| module rest IH]; cbn [for_modules];
    [discriminate |].
  destruct (in_locals model_name module && _); [| exact IH].
  intros H. apply outcome_bind_raise_inv in H as [H | (found & _ & H)].
  - exact (get_model_class_defs_raises _ h _ _ module e H).
  - destruct found; [exact (IH H) | discriminate].
Qed.

Lemma const_branch_raises (h : Host) (node : call_node) (arg : arg_node)
    (value : const_value) (e : exn) :
  outcome (const_branch h node arg value) = Raise e ->
  escapes h e /\ e <> UseInferenceDefault /\ e <> UnboundLocalError.
Proof.
  unfold const_branch.
  destruct (literal_target arg value) as [[module_name model_name] | e']
    eqn:Hlit.
  - intros H. apply outcome_bind_raise_inv in H as [H | (hint & _ & H)].
    + apply resolve_module_name_raises in H as [-> | [-> Hs]];
        repeat split; cbn; trivial; discriminate.
    + apply outcome_bind_raise_inv in H as [H | (found & _ & H)].
      * apply for_modules_raises in H as [-> | ->];
          repeat split; cbn; trivial; discriminate.
      * destruct found; discriminate.
  - destruct (literal_target_raises arg value e' Hlit) as [-> | ->];
      [discriminate |].
    intros [= <-]. repeat split; cbn; trivial; discriminate.
Qed.

Lemma return_key_cls_raises (key_cls : binding) (e : exn) :
  outcome (return_key_cls key_cls) = Raise e ->
  e = UnboundLocalError \/ e = AttributeError.
Proof.
  destruct key_cls as [| [[cls | [x |]] |]]; cbn; try discriminate;
    intros [= <-]; now (left + right).
Qed.

Lemma for_args_escapes (h : Host) (node : call_node)
    (candidates : list arg_node) :
  forall key_cls e,
    outcome (for_args h node candidates key_cls) = Raise e -> escapes h e.
Proof.
  induction candidates as [| arg rest IH]; intros key_cls e;
    cbn [for_args]; [now intros [= <-] |].
  assert (outcome (return_key_cls key_cls) = Raise e -> escapes h e) as Hret.
  { intros H. now apply return_key_cls_raises in H as [-> | ->]. }
  destruct (arg_expr arg) as [n [| v r |] | n [| v r |] | value |];
    try apply IH;
    try (intros H; now apply return_key_cls_raises in H as [-> | ->]).
  intros H. apply outcome_bind_raise_inv in H as [H | (how & _ & H)].
  - now apply const_branch_raises in H.
  - destruct how; [exact (IH _ _ H) | exact (Hret H) | discriminate].
Qed.

(** X1. Whatever exception leaves [infer_key_classes] is one of
    [UseInferenceDefault], [UnboundLocalError], [AttributeError],
    [TypeError], [RecursionError], the import failure, or the
    [RuntimeError] with the settings message, and that last one only while
    the framework is not configured. [InferenceError], [LookupError] and
    [ImproperlyConfigured] never leave it. *)
Theorem only_these_exceptions_escape (h : Host) (node : call_node) (e : exn) :
  outcome (infer_key_classes h node) = Raise e -> escapes h e.
Proof. apply for_args_escapes. Qed.

Lemma only_these_exceptions_escape_witness :
  escapes (Samples.host_app Samples.unconfigured)
    (RuntimeError settings_message).
Proof.
  apply (only_these_exceptions_escape
           (Samples.host_app Samples.unconfigured) Samples.call_otherapp_B).
  vm_compute. reflexivity.
Defined.

(** ** What it returns *)

Lemma for_modules_single (h : Host) (modules : list module_rec)
    (model_name module_name : string) (result : list value) :
  outcome (for_modules h modules model_name module_name) = Ok (Some result) ->
  exists cls, result = [InstanceOf cls].
Proof.
  induction modules as [| module rest IH]; cbn [for_modules];
    [discriminate |].
  destruct (in_locals model_name module && _); [| exact IH].
  intros H. apply outcome_bind_ok in H as (found & _ & H).
  destruct found as [| cls found]; [exact (IH H) |].
  injection H as <-. now exists cls.
Qed.

Lemma const_branch_single (h : Host) (node : call_node) (arg : arg_node)
    (c : const_value) (result : list value) :
  outcome (const_branch h node arg c) = Ok (Return result) ->
  exists cls, result = [InstanceOf cls].
Proof.
  unfold const_branch.
  destruct (literal_target arg c) as [[module_name model_name] | e].
  - intros H. apply outcome_bind_ok in H as (hint & _ & H).
    apply outcome_bind_ok in H as (found & Hfound & H).
    destruct found as [r |]; [| discriminate]. injection H as <-.
    exact (for_modules_single h _ _ _ r Hfound).
  - destruct e; discriminate.
Qed.

Lemma return_key_cls_single (key_cls : binding) (result : list value) :
  outcome (return_key_cls key_cls) = Ok result -> exists v, result = [v].
Proof.
  destruct key_cls as [| [[cls | [x |]] |]]; cbn; try discriminate;
    intros [= <-]; now eexists.
Qed.

Lemma for_args_single (h : Host) (node : call_node)
    (candidates : list arg_node) :
  forall key_cls result,
    outcome (for_args h node candidates key_cls) = Ok result ->
    exists v, result = [v].
Proof.
  induction candidates as [| arg rest IH]; intros key_cls result;
    cbn [for_args]; [discriminate |].
  destruct (arg_expr arg) as [n [| v r |] | n [| v r |] | value |];
    try apply IH; try apply return_key_cls_single.
  intros H. apply outcome_bind_ok in H as (how & Hhow & H).
  destruct how as [| | r].
  - exact (IH _ _ H).
  - exact (return_key_cls_single _ _ H).
  - injection H as <-.
    destruct (const_branch_single h node arg value r Hhow) as [cls ->].
    now eexists.
Qed.

(** X2. When [infer_key_classes] returns, the iterator it returns holds
    exactly one value: never none, never several. *)
Theorem returns_exactly_one_value (h : Host) (node : call_node)
    (result : list value) :
  outcome (infer_key_classes h node) = Ok result -> List.length result = 1.
Proof.
  intros H. destruct (for_args_single h node _ _ _ H) as [v ->]. reflexivity.
Qed.

Lemma returns_exactly_one_value_witness :
  List.length [InstanceOf Samples.clsB_base] = 1.
Proof.
  apply (returns_exactly_one_value Samples.host_forwarding
           (Samples.foreign_key [Const (CStr "B")] [])).
  vm_compute. reflexivity.
Defined.

(** ** When it declines *)




(** ** Bare references and application labels *)







Lemma registry_queries_bind {A B} (m : M A) (f : A -> M B) :
  registry_queries (events (bind m f))
  = registry_queries (events m)
    ++ match outcome m with
       | Ok a => registry_queries (events (f a))
       | Raise _ => []
       end.
Proof.
  destruct m as [log [a | e]]; unfold events, outcome, bind; cbn [fst snd].
  - destruct (f a) as [log' r]. cbn [fst]. apply registry_queries_app.
  - now rewrite app_nil_r.
Qed.

Lemma resolve_module_name_queries (h : Host) (node : call_node)
    (module_name model_name : string) :
  String.eqb module_name "" = false ->
  Str.endswith module_name "models" = false ->
  registry_queries
    (events (resolve_module_name h node module_name model_name))
  = [EvRegistry model_name module_name].
Proof.
  intros Hne Hends. unfold resolve_module_name. rewrite Hne, Hends.
  cbn [negb].
  pose proof (registry_events h model_name module_name) as Hev.
  pose proof (registry_raises h model_name module_name) as Hraises.
  destruct (_module_name_from_django_model_resolution h model_name
              module_name) as [log [m | e]]; cbn in Hev; subst log;
    [reflexivity |].
  destruct (Hraises e eq_refl) as [[-> _] | ->]; reflexivity.
Qed.

(** X6. Handling one constant queries the registry at most once: exactly
    once, for the pair (class name, prefix), when the constant yields a
    module name that is neither empty nor ends with ["models"], and not at
    all otherwise. *)
Theorem registry_is_queried_once_or_never (h : Host) (node : call_node)
    (arg : arg_node) (c : const_value) :
  registry_queries (events (const_branch h node arg c))
  = match literal_target arg c with
    | Ok (module_name, model_name) =>
        if negb (String.eqb module_name "")
           && negb (Str.endswith module_name "models")
        then [EvRegistry model_name module_name]
        else []
    | Raise _ => []
    end.
Proof.
  destruct (literal_target arg c) as [[module_name model_name] | e] eqn:Hlit.
  - destruct (negb (String.eqb module_name "")
              && negb (Str.endswith module_name "models")) eqn:Hq.
    + apply andb_true_iff in Hq as [Hne Hends].
      apply negb_true_iff in Hne, Hends.
      unfold const_branch. rewrite Hlit, registry_queries_bind.
      rewrite (resolve_module_name_queries h node _ _ Hne Hends).
      destruct (outcome (resolve_module_name h node module_name model_name))
        as [hint | e]; [| reflexivity].
      rewrite bind_quiet; [reflexivity | apply for_modules_quiet |].
      now intros [r |].
    + apply const_branch_quiet. intros mn md. rewrite Hlit.
      intros [= <- <-]. apply andb_false_iff in Hq as [Hq | Hq];
        apply negb_false_iff in Hq; [left | now right].
      now apply String.eqb_eq.
  - apply const_branch_quiet. intros mn md. rewrite Hlit. discriminate.
Qed.

(** ** The search through the cache *)

(** X7. Cached modules that fail the test of line 127 (the name is not in
    their symbol table, or their path does not end with the hint) have no
    part in a class lookup: dropping them from the cache changes neither
    the result nor the modules entered. *)
Theorem non_matching_modules_are_skipped (h : Host)
    (modules : list module_rec) (model_name module_name : string) :
  for_modules h modules model_name module_name
  = for_modules h (filter (matches model_name module_name) modules)
      model_name module_name.
Proof.
  induction modules as [| module rest IH]; [reflexivity |].
  cbn [filter for_modules]. unfold matches at 1.
  destruct (in_locals model_name module
            && Str.endswith (mod_name module) module_name) eqn:Hm;
    [| exact IH].
  cbn [for_modules]. rewrite Hm. unfold bind.
  destruct (_get_model_class_defs_from_module _ h module model_name
              module_name) as [log [[| cls found] | e]]; trivial.
  now rewrite IH.
Qed.



(** The test is on characters: with the hint [app.models], the cached
    module [otherapp.models] passes and, listed first, decides. *)
Lemma suffix_test_is_on_characters :
  for_modules (Samples.host_otherapp Samples.empty_registry)
    [Samples.otherapp_models; Samples.app_models] "B" "app.models"
  = ([EvVisit "otherapp.models"],
     Ok (Some [InstanceOf (mkClass "B" "otherapp.models")])).
Proof. vm_compute. reflexivity. Qed.

Lemma reaches_model (h : Host) (model_name : string) (module : module_rec)
    (cls : class_def) :
  reaches h model_name module cls ->
  node_is_subclass h cls ["django.db.models.base.Model"] = true.
Proof. induction 1; assumption. Qed.

Lemma for_modules_model (h : Host) (modules : list module_rec)
    (model_name module_name : string) (result : list value) :
  outcome (for_modules h modules model_name module_name) = Ok (Some result) ->
  exists cls,
    result = [InstanceOf cls] /\
    node_is_subclass h cls ["django.db.models.base.Model"] = true.
Proof.
  induction modules as [| module rest IH]; cbn [for_modules];
    [discriminate |].
  destruct (in_locals model_name module && _); [| exact IH].
  intros H. apply outcome_bind_ok in H as (found & Hfound & H).
  destruct found as [| cls found]; [exact (IH H) |].
  injection H as <-. exists cls. split; [reflexivity |].
  apply (reaches_model h model_name module).
  apply (get_model_class_defs_reaches _ h model_name module_name module
           (cls :: found) Hfound). now left.
Qed.

Lemma for_args_model (h : Host) (node : call_node)
    (candidates : list arg_node) :
  (forall a, In a candidates -> first_inferred a = None) ->
  forall key_cls result,
    key_cls = Unbound \/ key_cls = Bound None ->
    outcome (for_args h node candidates key_cls) = Ok result ->
    exists cls,
      result = [InstanceOf cls] /\
      node_is_subclass h cls ["django.db.models.base.Model"] = true.
Proof.
  induction candidates as [| arg rest IH]; intros Hnone key_cls result Hkey;
    cbn [for_args]; [discriminate |].
  assert (forall a, In a rest -> first_inferred a = None) as Hnone'
    by (intros a Ha; apply Hnone; now right).
  pose proof (Hnone arg (or_introl eq_refl)) as Harg.
  unfold first_inferred in Harg.
  destruct (arg_expr arg) as [n [| v r |] | n [| v r |] | c |];
    try discriminate Harg;
    try (apply (IH Hnone'); now right);
    try (apply (IH Hnone'); exact Hkey).
  intros H. apply outcome_bind_ok in H as (how & Hhow & H).
  destruct how as [| | r].
  - exact (IH Hnone' _ _ Hkey H).
  - destruct Hkey as [-> | ->]; discriminate H.
  - injection H as <-. unfold const_branch in Hhow.
    destruct (literal_target arg c) as [[module_name model_name] | e];
      [| destruct e; discriminate].
    apply outcome_bind_ok in Hhow as (hint & _ & Hhow).
    apply outcome_bind_ok in Hhow as (found & Hfound & Hhow).
    destruct found as [r' |]; [| discriminate]. injection Hhow as <-.
    exact (for_modules_model h _ _ _ r' Hfound).
Qed.

(** X9. When no name or attribute candidate has an inferred value, whatever
    [infer_key_classes] returns is an instance of a class for which
    [node_is_subclass(cls, "django.db.models.base.Model")] holds: a textual
    reference never resolves to a class that is not a model. *)
Theorem textual_references_resolve_to_models (h : Host) (node : call_node)
    (result : list value) :
  (forall a, In a (all_args node) -> first_inferred a = None) ->
  outcome (infer_key_classes h node) = Ok result ->
  exists cls,
    result = [InstanceOf cls] /\
    node_is_subclass h cls ["django.db.models.base.Model"] = true.
Proof.
  intros Hnone H.
  apply (for_args_model h node (all_args node) Hnone Unbound); [now left |].
  exact H.
Qed.

Lemma textual_references_resolve_to_models_witness :
  exists cls,
    [InstanceOf Samples.clsB_base] = [InstanceOf cls] /\
    node_is_subclass Samples.host_forwarding cls
      ["django.db.models.base.Model"] = true.
Proof.
  apply (textual_references_resolve_to_models Samples.host_forwarding
           (Samples.foreign_key [Const (CStr "B")] [])).
  - intros a [<- | []]. reflexivity.
  - vm_compute. reflexivity.
Defined.

(** ** Import following *)

Lemma for_module_nodes_direct (h : Host)
    (recurse : module_rec -> M (list class_def))
    (module_nodes : list module_node) :
  forallb (fun x => negb (is_import x)) module_nodes = true ->
  forall class_defs,
    for_module_nodes h recurse module_nodes class_defs
    = ret (class_defs ++ model_classes h module_nodes).
Proof.
  induction module_nodes as [| [cls | modname |] rest IH]; intros Hdirect
    class_defs; cbn [for_module_nodes model_classes flat_map].
  - now rewrite app_nil_r.
  - fold (model_classes h rest).
    destruct (node_is_subclass h cls _); rewrite (IH Hdirect);
      [now rewrite <- app_assoc | reflexivity].
  - discriminate.
  - fold (model_classes h rest). now rewrite (IH Hdirect).
Qed.

(** X10. For a module whose lookup of the name yields no from-import, one
    call at any depth of at least one enters that module alone and returns
    the model classes among the definitions, in the order of the lookup;
    classes that are not models and other nodes are left out. *)
Theorem lookup_without_imports_returns_the_model_classes (depth : nat)
    (h : Host) (module : module_rec) (model_name module_name : string) :
  forallb (fun x => negb (is_import x)) (mod_lookup module model_name) = true ->
  _get_model_class_defs_from_module (S depth) h module model_name module_name
  = ([EvVisit (mod_name module)],
     Ok (model_classes h (mod_lookup module model_name))).
Proof.
  intros Hdirect. cbn [_get_model_class_defs_from_module].
  now rewrite (for_module_nodes_direct h _ _ Hdirect []).
Qed.

Lemma lookup_without_imports_returns_the_model_classes_witness :
  _get_model_class_defs_from_module 1 Samples.host_forwarding Samples.app_base
    "B" "app.models"
  = ([EvVisit "app.base"], Ok [Samples.clsB_base]).
Proof.
  exact (lookup_without_imports_returns_the_model_classes 0
           Samples.host_forwarding Samples.app_base "B" "app.models" eq_refl).
Defined.

Lemma for_module_nodes_deeper (h : Host)
    (recurse recurse' : module_rec -> M (list class_def))
    (module_nodes : list module_node) :
  (forall m, outcome (recurse m) <> Raise RecursionError ->
             recurse' m = recurse m) ->
  forall class_defs,
    outcome (for_module_nodes h recurse module_nodes class_defs)
    <> Raise RecursionError ->
    for_module_nodes h recurse' module_nodes class_defs
    = for_module_nodes h recurse module_nodes class_defs.
Proof.
  intros Hagree.
  induction module_nodes as [| [cls | modname |] rest IH]; intros class_defs;
    cbn [for_module_nodes]; trivial; try apply IH.
  - destruct (node_is_subclass h cls _); apply IH.
  - destruct (do_import_module h modname) as [m |]; [| reflexivity].
    intros Hok.
    assert (outcome (recurse m) <> Raise RecursionError) as Hm.
    { intros Hm. apply Hok. now apply outcome_bind_raise. }
    rewrite (Hagree m Hm). unfold bind in *.
    destruct (recurse m) as [log [found | e]]; [| reflexivity].
    rewrite IH; [reflexivity |].
    intros Hrest. apply Hok. unfold outcome in *.
    now destruct (for_module_nodes h recurse rest (class_defs ++ found)).
Qed.

(** X11. A lookup that does not run out of recursion depth does not depend
    on the depth: with more depth allowed it enters the same modules in the
    same order and has the same outcome. *)
Theorem more_depth_changes_nothing (d : nat) :
  forall (depth : nat) (h : Host) (module : module_rec)
         (model_name module_name : string),
    outcome (_get_model_class_defs_from_module d h module model_name
               module_name) <> Raise RecursionError ->
    d <= depth ->
    _get_model_class_defs_from_module depth h module model_name module_name
    = _get_model_class_defs_from_module d h module model_name module_name.
Proof.
  induction d as [| d IH]; intros depth h module model_name module_name Hok Hle.
  - now elim Hok.
  - destruct depth as [| depth]; [lia |].
    cbn [_get_model_class_defs_from_module] in *.
    rewrite (for_module_nodes_deeper h
               (fun m => _get_model_class_defs_from_module d h m model_name
                           module_name)
               (fun m => _get_model_class_defs_from_module depth h m
                           model_name module_name));
      [reflexivity | |].
    + intros m Hm. apply IH; [exact Hm | lia].
    + intros Hrest. apply Hok. unfold bind, tell, outcome in *.
      now destruct (for_module_nodes h _ (mod_lookup module model_name) []).
Qed.

Lemma more_depth_changes_nothing_witness :
  _get_model_class_defs_from_module 1000 Samples.host_forwarding
    Samples.app_models_forwarding "B" "app.models"
  = _get_model_class_defs_from_module 2 Samples.host_forwarding
      Samples.app_models_forwarding "B" "app.models".
Proof.
  apply (more_depth_changes_nothing 2 1000 Samples.host_forwarding
           Samples.app_models_forwarding "B" "app.models").
  - vm_compute. discriminate.
  - apply Nat.leb_le. vm_compute. reflexivity.
Defined.

(** ** What the result depends on *)

Lemma return_key_cls_events (key_cls : binding) :
  events (return_key_cls key_cls) = [].
Proof. now destruct key_cls as [| [[cls | [x |]] |]]. Qed.

(** X12. A call none of whose candidates is a constant is settled by
    inference alone: no cached module is entered and the registry is not
    queried. *)
Theorem without_constants_nothing_is_searched (h : Host) (node : call_node) :
  forallb (fun a => negb (is_const a)) (all_args node) = true ->
  events (infer_key_classes h node) = [].
Proof.
  unfold infer_key_classes. generalize Unbound.
  induction (all_args node) as [| arg rest IH]; intros key_cls Hno;
    cbn [for_args]; [reflexivity |].
  cbn [forallb] in Hno. apply andb_true_iff in Hno as [Harg Hno].
  unfold is_const in Harg.
  destruct (arg_expr arg) as [n [| v r |] | n [| v r |] | c |];
    try discriminate Harg; try apply (IH _ Hno);
    apply return_key_cls_events.
Qed.

Lemma without_constants_nothing_is_searched_witness :
  events (infer_key_classes Samples.host_cyclic
            (Samples.foreign_key
               [Name "B" (SeqYield (InfClass Samples.clsB) SeqEnd)] []))
  = [].
Proof.
  apply (without_constants_nothing_is_searched Samples.host_cyclic
           (Samples.foreign_key
              [Name "B" (SeqYield (InfClass Samples.clsB) SeqEnd)] [])).
  reflexivity.
Defined.

Lemma current_module_name_parent (node node' : call_node) :
  call_parent node = call_parent node' ->
  current_module_name node = current_module_name node'.
Proof.
  intros H. unfold current_module_name, as_node. now rewrite H.
Qed.

Lemma const_branch_parent (h : Host) (node node' : call_node) (arg : arg_node)
    (c : const_value) :
  call_parent node = call_parent node' ->
  const_branch h node arg c = const_branch h node' arg c.
Proof.
  intros H. unfold const_branch, resolve_module_name.
  now rewrite (current_module_name_parent node node' H).
Qed.

Lemma for_args_parent (h : Host) (node node' : call_node)
    (candidates : list arg_node) :
  call_parent node = call_parent node' ->
  forall key_cls,
    for_args h node candidates key_cls = for_args h node' candidates key_cls.
Proof.
  intros H. induction candidates as [| arg rest IH]; intros key_cls;
    cbn [for_args]; [reflexivity |].
  destruct (arg_expr arg) as [n [| v r |] | n [| v r |] | c |];
    trivial.
  rewrite (const_branch_parent h node node' arg c H). unfold bind.
  destruct (const_branch h node' arg c) as [log [[| | r] | e]]; trivial.
  now rewrite IH.
Qed.

(** X13. The result depends on the call only through its parent, its
    positional arguments and the values of its [to] keywords: the callee and
    every other keyword argument (such as [on_delete] or [related_name],
    whatever their values) are never looked at. *)
Theorem other_keywords_are_ignored (h : Host) (node node' : call_node) :
  call_parent node = call_parent node' ->
  args node = args node' ->
  filter is_to (keywords node) = filter is_to (keywords node') ->
  infer_key_classes h node = infer_key_classes h node'.
Proof.
  intros Hparent Hargs Hto. unfold infer_key_classes, all_args.
  rewrite Hargs, Hto. now apply for_args_parent.
Qed.

Lemma other_keywords_are_ignored_witness :
  infer_key_classes (Samples.host_app Samples.empty_registry)
    (Samples.foreign_key [Const (CStr "B")] [])
  = infer_key_classes (Samples.host_app Samples.empty_registry)
      (mkCall (Some Samples.assign_in_A) (Name "OneToOneField" SeqRaise)
         [Samples.positional (Const (CStr "B"))]
         [mkKeyword (Some "related_name")
            (mkArg (Const (CStr "self"))
               (Some (Node (nodes_Keyword (Some "related_name"))
                        (Some Samples.the_call))));
          mkKeyword None (mkArg OtherExpr None)]).
Proof.
  apply (other_keywords_are_ignored
           (Samples.host_app Samples.empty_registry)); reflexivity.
Defined.

(** ** Where [UnboundLocalError] comes from *)

Lemma return_key_cls_bound (v : option inferred) :
  outcome (return_key_cls (Bound v)) <> Raise UnboundLocalError.
Proof. destruct v as [[cls | [x |]] |]; discriminate. Qed.

Lemma for_args_bound (h : Host) (node : call_node)
    (candidates : list arg_node) :
  forall v,
    outcome (for_args h node candidates (Bound v))
    <> Raise UnboundLocalError.
Proof.
  induction candidates as [| arg rest IH]; intros v; cbn [for_args];
    [discriminate |].
  destruct (arg_expr arg) as [n [| w r |] | n [| w r |] | c |];
    try apply IH; try apply return_key_cls_bound.
  intros H. apply outcome_bind_raise_inv in H as [H | (how & _ & H)].
  - apply const_branch_raises in H as (_ & _ & H). now elim H.
  - destruct how; [exact (IH v H) | exact (return_key_cls_bound v H)
                   | discriminate].
Qed.

Lemma const_branch_break (h : Host) (node : call_node) (arg : arg_node)
    (c : const_value) :
  outcome (const_branch h node arg c) = Ok Break ->
  literal_target arg c = Raise AttributeError.
Proof.
  unfold const_branch.
  destruct (literal_target arg c) as [[module_name model_name] | e].
  - intros H. apply outcome_bind_ok in H as (hint & _ & H).
    apply outcome_bind_ok in H as ([r |] & _ & H); discriminate.
  - destruct e; try discriminate. reflexivity.
Qed.

Lemma for_args_unbound (h : Host) (node : call_node)
    (candidates : list arg_node) :
  outcome (for_args h node candidates Unbound) = Raise UnboundLocalError ->
  exists pre arg rest c,
    candidates = pre ++ arg :: rest /\
    forallb (fun a => negb (is_name_or_attribute a)) pre = true /\
    arg_expr arg = Const c /\
    literal_target arg c = Raise AttributeError.
Proof.
  induction candidates as [| arg rest IH]; cbn [for_args]; [discriminate |].
  assert (outcome (for_args h node rest Unbound) = Raise UnboundLocalError ->
          negb (is_name_or_attribute arg) = true ->
          exists pre arg0 rest0 c,
            arg :: rest = pre ++ arg0 :: rest0 /\
            forallb (fun a => negb (is_name_or_attribute a)) pre = true /\
            arg_expr arg0 = Const c /\
            literal_target arg0 c = Raise AttributeError) as Hnext.
  { intros H Harg. destruct (IH H) as (pre & a & r & c & -> & Hpre & Ha & Hl).
    exists (arg :: pre), a, r, c. repeat split; trivial.
    cbn [forallb]. now rewrite Harg, Hpre. }
  unfold is_name_or_attribute in Hnext.
  destruct (arg_expr arg) as [n [| w r |] | n [| w r |] | c |] eqn:Harg;
    try (intros H; now apply for_args_bound in H);
    try (intros H; now apply return_key_cls_bound in H);
    [| intros H; now apply Hnext].
  intros H. apply outcome_bind_raise_inv in H as [H | (how & Hhow & H)].
  - apply const_branch_raises in H as (_ & _ & H). now elim H.
  - destruct how; [now apply Hnext | | discriminate].
    exists [], arg, rest, c. repeat split; trivial.
    exact (const_branch_break h node arg c Hhow).
Qed.

(** X14. [infer_key_classes] ends in [UnboundLocalError] only in one way:
    some candidate is a constant for which the [try] block raises
    [AttributeError] (no [rpartition], or the walk up from ["self"] fails),
    and no name or attribute access comes before it among the candidates. *)
Theorem unbound_local_error_has_one_cause (h : Host) (node : call_node) :
  outcome (infer_key_classes h node) = Raise UnboundLocalError ->
  exists pre arg rest c,
    all_args node = pre ++ arg :: rest /\
    forallb (fun a => negb (is_name_or_attribute a)) pre = true /\
    arg_expr arg = Const c /\
    literal_target arg c = Raise AttributeError.
Proof. apply for_args_unbound. Qed.

Lemma unbound_local_error_has_one_cause_witness :
  exists pre arg rest c,
    all_args Samples.call_42 = pre ++ arg :: rest /\
    forallb (fun a => negb (is_name_or_attribute a)) pre = true /\
    arg_expr arg = Const c /\
    literal_target arg c = Raise AttributeError.
Proof.
  apply (unbound_local_error_has_one_cause
           (Samples.host_app Samples.empty_registry) Samples.call_42).
  vm_compute. reflexivity.
Defined.
